(** * Verification of the password-reset wizard and the client form

    The development embeds two React components:

    - [ForgotPassword] (src/pages/auth/ForgotPassword.jsx): the three step
      password-reset wizard, its yup schemas, the three submit handlers and
      the Back button;
    - [ClientForm] (the client create/edit form): its yup schema,
      [validateForm] and [handleSubmit].

    A JavaScript string is a sequence of code units; it is represented by
    [string], one [ascii] per code unit, so [String.length] is the
    [.length] of the source.  Component state is a record, a [setX] call a
    record update, an [await] a point where the handler is cut in two and
    the outcome of the request is supplied from outside.  The object that
    react-hook-form hands to a submit handler is the one it keeps the
    field values in: what a handler reads from it after an [await] is
    what the fields hold then. *)

From Stdlib Require Import Ascii String.
From stdpp Require Import base numbers list strings gmap.

Local Open Scope string_scope.
Local Open Scope list_scope.

(** ** Patterns

    The yup tests [email()] and [url()] match their argument against a
    pattern that lives in the yup library.  The components are verified for
    an arbitrary pattern; [Pattern] gives a small matcher by derivatives in
    which the library patterns are written down, so that the statements can
    be evaluated on concrete inputs. *)

Module Pattern.

Inductive regex : Type :=
| Void
| Eps
| Class (p : ascii → bool)
| Seq (r1 r2 : regex)
| Alt (r1 r2 : regex)
| Star (r : regex).

Fixpoint nullable (r : regex) : bool :=
  match r with
  | Void => false
  | Eps => true
  | Class _ => false
  | Seq r1 r2 => nullable r1 && nullable r2
  | Alt r1 r2 => nullable r1 || nullable r2
  | Star _ => true
  end.

(** Constructors that absorb [Void] and [Eps], to keep derivatives small. *)
Definition seq (r1 r2 : regex) : regex :=
  match r1, r2 with
  | Void, _ => Void
  | _, Void => Void
  | Eps, _ => r2
  | _, Eps => r1
  | _, _ => Seq r1 r2
  end.

Definition alt (r1 r2 : regex) : regex :=
  match r1, r2 with
  | Void, _ => r2
  | _, Void => r1
  | _, _ => Alt r1 r2
  end.

Fixpoint deriv (c : ascii) (r : regex) : regex :=
  match r with
  | Void => Void
  | Eps => Void
  | Class p => if p c then Eps else Void
  | Seq r1 r2 =>
      if nullable r1
      then alt (seq (deriv c r1) r2) (deriv c r2)
      else seq (deriv c r1) r2
  | Alt r1 r2 => alt (deriv c r1) (deriv c r2)
  | Star r1 => seq (deriv c r1) (Star r1)
  end.

(** [matches r s]: the whole of [s] is a word of [r] (a pattern anchored
    with ^ and $). *)
Fixpoint matches (r : regex) (s : string) : bool :=
  match s with
  | EmptyString => nullable r
  | String c s' => matches (deriv c r) s'
  end.

(** The language of a pattern, to state what [matches] decides. *)
Inductive lang : regex → string → Prop :=
| lang_eps : lang Eps ""
| lang_class p c : p c = true → lang (Class p) (String c "")
| lang_seq r1 r2 s1 s2 : lang r1 s1 → lang r2 s2 → lang (Seq r1 r2) (s1 +:+ s2)
| lang_alt_l r1 r2 s : lang r1 s → lang (Alt r1 r2) s
| lang_alt_r r1 r2 s : lang r2 s → lang (Alt r1 r2) s
| lang_star_nil r : lang (Star r) ""
| lang_star_cons r s1 s2 : lang r s1 → lang (Star r) s2 → lang (Star r) (s1 +:+ s2).

(** Derived forms: r?, r+, r{0,n}. *)
Definition opt (r : regex) : regex := Alt Eps r.
Definition plus (r : regex) : regex := Seq r (Star r).

Fixpoint upto (n : nat) (r : regex) : regex :=
  match n with
  | O => Eps
  | S n' => opt (Seq r (upto n' r))
  end.

Fixpoint exactly (n : nat) (r : regex) : regex :=
  match n with
  | O => Eps
  | S n' => Seq r (exactly n' r)
  end.

Definition chr (c : ascii) : regex := Class (λ x, bool_decide (x = c)).

Fixpoint lit (s : string) : regex :=
  match s with
  | EmptyString => Eps
  | String c s' => Seq (chr c) (lit s')
  end.

(** Character classes. *)
Definition code (c : ascii) : N := N_of_ascii c.
Definition between (lo hi : N) (c : ascii) : bool :=
  (lo <=? code c)%N && (code c <=? hi)%N.

Definition lower (c : ascii) : bool := between 97 122 c.
Definition upper (c : ascii) : bool := between 65 90 c.
Definition digit (c : ascii) : bool := between 48 57 c.
Definition alnum (c : ascii) : bool := lower c || upper c || digit c.

(** Under the flag i a letter of the pattern matches both of its cases. *)
Definition fold_case (c : ascii) : ascii :=
  if upper c then ascii_of_N (code c + 32) else c.

Definition ichr (c : ascii) : regex :=
  Class (λ x, bool_decide (fold_case x = fold_case c)).

Fixpoint ilit (s : string) : regex :=
  match s with
  | EmptyString => Eps
  | String c s' => Seq (ichr c) (ilit s')
  end.

Fixpoint one_of (set : string) (c : ascii) : bool :=
  match set with
  | EmptyString => false
  | String x set' => bool_decide (c = x) || one_of set' c
  end.

End Pattern.

(** ** The library patterns *)

Module Patterns.
Import Pattern.

(** The pattern of yup's [email()] test:
    /^[a-zA-Z0-9.!#$%&'*+\/=?^_`{|}~-]+@[a-zA-Z0-9](?:[a-zA-Z0-9-]{0,61}[a-zA-Z0-9])?(?:\.[a-zA-Z0-9](?:[a-zA-Z0-9-]{0,61}[a-zA-Z0-9])?)*$/ *)
Definition atext (c : ascii) : bool := alnum c || one_of ".!#$%&'*+/=?^_`{|}~-" c.
Definition let_dig_hyp (c : ascii) : bool := alnum c || one_of "-" c.

Definition label : regex :=
  Seq (Class alnum) (opt (Seq (upto 61 (Class let_dig_hyp)) (Class alnum))).

Definition rEmail_regex : regex :=
  Seq (plus (Class atext))
    (Seq (chr "@") (Seq label (Star (Seq (chr ".") label)))).

Definition rEmail (s : string) : bool := matches rEmail_regex s.

(** The pattern of yup's [url()] test, which carries the flag i, on code
    units below 256 (of the class of code units from A0 upwards, only
    A0..FF is representable). *)
Definition letter (c : ascii) : bool := lower c || upper c.
Definition ucs (c : ascii) : bool := between 160 255 c.
Definition hexdig (c : ascii) : bool := digit c || between 97 102 c || between 65 70 c.

Definition L : regex := Class (λ c, letter c || ucs c).
Definition LD : regex := Class (λ c, letter c || digit c || ucs c).
Definition U : regex := Class (λ c, letter c || digit c || one_of "-._~" c || ucs c).
Definition pct : regex := Seq (chr "%") (exactly 2 (Class hexdig)).
Definition sub : regex := Class (one_of "!$&'()*+,;=").
Definition pchar : regex := Alt U (Alt pct (Alt sub (Alt (chr ":") (chr "@")))).

Definition octet : regex :=
  Alt (Class digit)
    (Alt (Seq (Class (between 49 57)) (Class digit))
       (Alt (Seq (chr "1") (Seq (Class digit) (Class digit)))
          (Alt (Seq (chr "2") (Seq (Class (between 48 52)) (Class digit)))
             (Seq (lit "25") (Class (between 48 53)))))).

Definition scheme : regex :=
  opt (Seq (Alt (Seq (ilit "http") (opt (ichr "s"))) (ilit "ftp")) (chr ":")).
Definition userinfo : regex :=
  opt (Seq (Star (Alt U (Alt pct (Alt sub (chr ":"))))) (chr "@")).
Definition ipv4 : regex :=
  Seq octet (Seq (chr ".") (Seq octet (Seq (chr ".") (Seq octet (Seq (chr ".") octet))))).
Definition domain : regex :=
  Seq (plus (Seq (Alt LD (Seq LD (Seq (Star U) LD))) (chr ".")))
    (Seq (Alt L (Seq L (Seq (Star U) L))) (opt (chr "."))).
Definition port : regex := opt (Seq (chr ":") (Star (Class digit))).
Definition path : regex :=
  opt (Seq (chr "/")
         (opt (Seq (plus pchar) (Star (Seq (chr "/") (Star pchar)))))).
Definition query : regex :=
  opt (Seq (chr "?") (Star (Alt pchar (Alt (chr "/") (chr "?"))))).
Definition fragment : regex :=
  opt (Seq (chr "#") (Star (Alt pchar (Alt (chr "/") (chr "?"))))).

Definition rUrl_regex : regex :=
  Seq scheme
    (Seq (lit "//")
       (Seq userinfo
          (Seq (Seq (Alt ipv4 domain) port)
             (Seq path (Seq query fragment))))).

Definition rUrl (s : string) : bool := matches rUrl_regex s.

End Patterns.

(** ** The yup tests used by the schemas

    A test is a predicate on the value; a schema lists its tests with their
    messages, and validating yields one error (path, message) for each test
    that fails. *)

Module Yup.

Definition ValidationError : Type := string * string.

Definition path (e : ValidationError) : string := e.1.
Definition msg (e : ValidationError) : string := e.2.

(** One test of a field: no error when it passes, one when it fails. *)
Definition test (field message : string) (passes : bool) : list ValidationError :=
  if passes then [] else [(field, message)].

(** [string().required()]: a string of length zero is rejected. *)
Definition required (value : string) : bool := negb (Nat.eqb (String.length value) 0).

(** [length(n)], [min(n)], [max(n)] compare [value.length]. *)
Definition length (n : nat) (value : string) : bool := Nat.eqb (String.length value) n.
Definition min (n : nat) (value : string) : bool := Nat.leb n (String.length value).
Definition max (n : nat) (value : string) : bool := Nat.leb (String.length value) n.

(** [email()] and [url()] are [matches(pattern, {excludeEmptyString: true})]:
    the empty string passes them. *)
Definition matches (pattern : string → bool) (value : string) : bool :=
  bool_decide (value = "") || pattern value.

(** [oneOf([ref(other), null])] on a string value: equality with the other
    field. *)
Definition oneOf_ref (other value : string) : bool := bool_decide (value = other).

End Yup.

(** ** ForgotPassword.jsx: the password-reset wizard *)

Module ForgotPassword.

(** The values of the form: [defaultValues], and what the object [data]
    of the handlers holds at one moment. *)
Module Data.
Record t : Type := mk {
  email : string;
  otp : string;
  newPassword : string;
  confirmNewPassword : string
}.
Definition defaultValues : t := mk "" "" "" "".
End Data.

(** The five [useState] cells of the component. *)
Record WizardState : Type := mkState {
  step : Z;
  message : string;
  success : bool;
  isLoading : bool;
  email : string
}.

Definition initial : WizardState := mkState 1 "" false false "".

Definition setStep (v : Z) (s : WizardState) : WizardState :=
  mkState v (message s) (success s) (isLoading s) (email s).
Definition setMessage (v : string) (s : WizardState) : WizardState :=
  mkState (step s) v (success s) (isLoading s) (email s).
Definition setSuccess (v : bool) (s : WizardState) : WizardState :=
  mkState (step s) (message s) v (isLoading s) (email s).
Definition setIsLoading (v : bool) (s : WizardState) : WizardState :=
  mkState (step s) (message s) (success s) v (email s).
Definition setEmail (v : string) (s : WizardState) : WizardState :=
  mkState (step s) (message s) (success s) (isLoading s) v.

(** What a handler does to the outside: a request through axiosInstance
    (url and JSON body) or a navigation. *)
Inductive Effect : Type :=
| Post (url : string) (body : list (string * string))
| Navigate (to : string).

(** How an awaited request ends: the promise resolves with
    [response.data = {success, message}], or it rejects and the [await]
    throws [error]. *)
Inductive Outcome : Type :=
| Resolved (success : bool) (message : string)
| Rejected (error : string).

Definition is_post (e : Effect) : bool :=
  match e with Post _ _ => true | Navigate _ => false end.
Definition is_navigate (e : Effect) : bool :=
  match e with Navigate _ => true | Post _ _ => false end.

(** The banner above the form: rendered when [message] is not empty, in
    green or red after [success]. *)
Definition banner (s : WizardState) : option (string * bool) :=
  if bool_decide (message s = "") then None else Some (message s, success s).

(** *** The three handlers

    Each handler is cut at its [await]: [_send] is the code up to the
    request, [_settle] the code from the response (or the exception) to
    the end of [finally].  Each part is given [data] as the values object
    holds it when that part runs. *)

Definition handleEmailSubmit_send (data : Data.t) (s : WizardState)
  : WizardState * Effect :=
  (setMessage "" (setIsLoading true s),
   Post "/auth/forgot-password" [("email", Data.email data)]).

Definition handleEmailSubmit_settle (data : Data.t) (o : Outcome) (s : WizardState)
  : WizardState * list Effect :=
  let s' :=
    match o with
    | Resolved ok m =>
        let s1 := setSuccess ok (setMessage m s) in
        if ok then setStep 2 (setEmail (Data.email data) s1) else s1
    | Rejected _ =>
        setSuccess false (setMessage "Something went wrong. Please try again." s)
    end in
  (setIsLoading false s', []).

Definition handleOtpSubmit_send (data : Data.t) (s : WizardState)
  : WizardState * Effect :=
  (setMessage "" (setIsLoading true s),
   Post "/auth/verify-otp" [("email", email s); ("otp", Data.otp data)]).

Definition handleOtpSubmit_settle (data : Data.t) (o : Outcome) (s : WizardState)
  : WizardState * list Effect :=
  let s' :=
    match o with
    | Resolved ok m =>
        let s1 := setSuccess ok (setMessage m s) in
        if ok then setStep 3 s1 else s1
    | Rejected _ =>
        setSuccess false (setMessage "Error verifying OTP. Please try again." s)
    end in
  (setIsLoading false s', []).

Definition handlePasswordReset_send (data : Data.t) (s : WizardState)
  : WizardState * Effect :=
  (setMessage "" (setIsLoading true s),
   Post "/auth/reset-password"
     [("email", email s);
      ("newPassword", Data.newPassword data);
      ("confirmNewPassword", Data.confirmNewPassword data)]).

Definition handlePasswordReset_settle (data : Data.t) (o : Outcome) (s : WizardState)
  : WizardState * list Effect :=
  let '(s', effs) :=
    match o with
    | Resolved ok m =>
        let s1 := setSuccess ok (setMessage m s) in
        if ok then (setStep 1 s1, [Navigate "/login"]) else (s1, [])
    | Rejected _ =>
        (setSuccess false (setMessage "Error resetting password. Please try again." s), [])
    end in
  (setIsLoading false s', effs).

Inductive Handler : Type :=
| HandleEmailSubmit
| HandleOtpSubmit
| HandlePasswordReset.

Definition send (h : Handler) : Data.t → WizardState → WizardState * Effect :=
  match h with
  | HandleEmailSubmit => handleEmailSubmit_send
  | HandleOtpSubmit => handleOtpSubmit_send
  | HandlePasswordReset => handlePasswordReset_send
  end.

Definition settle (h : Handler) : Data.t → Outcome → WizardState → WizardState * list Effect :=
  match h with
  | HandleEmailSubmit => handleEmailSubmit_settle
  | HandleOtpSubmit => handleOtpSubmit_settle
  | HandlePasswordReset => handlePasswordReset_settle
  end.

(** A handler run from its call to its end, the request ending in [o].
    [data] is the object in which react-hook-form keeps the values of the
    fields, and the inputs stay enabled while the request is out: [data]
    is what the object holds when the handler is called, [data'] what it
    holds when the handler resumes after the [await]. *)
Definition run (h : Handler) (data data' : Data.t) (o : Outcome) (s : WizardState)
  : WizardState * list Effect :=
  let '(s1, req) := send h data s in
  let '(s2, effs) := settle h data' o s1 in
  (s2, req :: effs).

Definition handleEmailSubmit := run HandleEmailSubmit.
Definition handleOtpSubmit := run HandleOtpSubmit.
Definition handlePasswordReset := run HandlePasswordReset.

(** *** Validation, the forms and the page

    [email_pattern] is the pattern behind yup's [email()]. *)

Section Wizard.
Variable email_pattern : string → bool.

Definition emailSchema (v : Data.t) : list Yup.ValidationError :=
  Yup.test "email" "Invalid email address"
    (Yup.matches email_pattern (Data.email v)) ++
  Yup.test "email" "Email is required" (Yup.required (Data.email v)).

Definition otpSchema (v : Data.t) : list Yup.ValidationError :=
  Yup.test "otp" "OTP must be 6 digits" (Yup.length 6 (Data.otp v)) ++
  Yup.test "otp" "OTP is required" (Yup.required (Data.otp v)).

Definition passwordSchema (v : Data.t) : list Yup.ValidationError :=
  Yup.test "newPassword" "Password must be at least 6 characters long"
    (Yup.min 6 (Data.newPassword v)) ++
  Yup.test "newPassword" "New password is required"
    (Yup.required (Data.newPassword v)) ++
  (if Yup.oneOf_ref (Data.newPassword v) (Data.confirmNewPassword v)
   then Yup.test "confirmNewPassword" "Confirm password is required"
          (Yup.required (Data.confirmNewPassword v))
   else [("confirmNewPassword", "Passwords must match")]).

(** [yupResolver(step === 1 ? emailSchema : step === 2 ? otpSchema : passwordSchema)] *)
Definition resolver (s : WizardState) : Data.t → list Yup.ValidationError :=
  if (step s =? 1)%Z then emailSchema
  else if (step s =? 2)%Z then otpSchema
  else passwordSchema.

(** The form that is rendered, by the handler it submits to:
    [step === 1 && ...], [step === 2 && ...], [step === 3 && ...]. *)
Definition form (s : WizardState) : option Handler :=
  if (step s =? 1)%Z then Some HandleEmailSubmit
  else if (step s =? 2)%Z then Some HandleOtpSubmit
  else if (step s =? 3)%Z then Some HandlePasswordReset
  else None.

(** [handleSubmit(h)] of react-hook-form: the resolver runs first, on the
    values the fields hold at the submission, and [h] is called with the
    values object only when it reports no error. *)
Definition handleSubmit (h : Handler) (values values' : Data.t) (o : Outcome)
  (s : WizardState) : WizardState * list Effect :=
  match resolver s values with
  | [] => run h values values' o s
  | _ :: _ => (s, [])
  end.

(** Submitting the form that is on the page: the fields hold [values] at
    the submission and [values'] when the answer arrives. *)
Definition onSubmit (values values' : Data.t) (o : Outcome) (s : WizardState)
  : WizardState * list Effect :=
  match form s with
  | Some h => handleSubmit h values values' o s
  | None => (s, [])
  end.

(** [errors] of the form state: the first message of each field. *)
Definition toFieldErrors (errs : list Yup.ValidationError) : gmap string string :=
  foldr (λ e acc, <[Yup.path e := Yup.msg e]> acc) ∅ errs.

(** The navigations and the requests among the effects of a handler. *)
Definition navigations (effs : list Effect) : list Effect := filter is_navigate effs.
Definition requests (effs : list Effect) : list Effect := filter is_post effs.

(** The four inputs, each rendered in the form of its step. *)
Inductive Input : Type :=
| EmailInput
| OtpInput
| NewPasswordInput
| ConfirmNewPasswordInput.

Definition inputName (i : Input) : string :=
  match i with
  | EmailInput => "email"
  | OtpInput => "otp"
  | NewPasswordInput => "newPassword"
  | ConfirmNewPasswordInput => "confirmNewPassword"
  end.

Definition rendered (i : Input) (s : WizardState) : bool :=
  match i with
  | EmailInput => (step s =? 1)%Z
  | OtpInput => (step s =? 2)%Z
  | NewPasswordInput | ConfirmNewPasswordInput => (step s =? 3)%Z
  end.

Definition setValue (i : Input) (v : string) (d : Data.t) : Data.t :=
  match i with
  | EmailInput =>
      Data.mk v (Data.otp d) (Data.newPassword d) (Data.confirmNewPassword d)
  | OtpInput =>
      Data.mk (Data.email d) v (Data.newPassword d) (Data.confirmNewPassword d)
  | NewPasswordInput =>
      Data.mk (Data.email d) (Data.otp d) v (Data.confirmNewPassword d)
  | ConfirmNewPasswordInput =>
      Data.mk (Data.email d) (Data.otp d) (Data.newPassword d) v
  end.

(** [mode: 'onChange']: after a change the resolver runs on the new values
    and the error of the changed field is set or removed. *)
Definition revalidate (i : Input) (s : WizardState) (d : Data.t)
  (errs : gmap string string) : gmap string string :=
  match toFieldErrors (resolver s d) !! inputName i with
  | Some m => <[inputName i := m]> errs
  | None => delete (inputName i) errs
  end.

(** The page between two events: the state cells, the field errors, the
    values object of the form, and the handlers that wait for their
    response, each with the values it was called with. *)
Record Page : Type := mkPage {
  ui : WizardState;
  errors : gmap string string;
  formValues : Data.t;
  inflight : list (Handler * Data.t)
}.

Definition mount : Page := mkPage initial ∅ Data.defaultValues [].

Inductive Event : Type :=
| Submit (values : Data.t)
| Change (i : Input) (v : string)
| Back
| Settle (k : nat) (o : Outcome).

(** One event.  [Submit values]: the form is submitted, its fields
    holding [values]; it needs a form whose button is not disabled
    ([disabled={isLoading}]).  [Change i v]: the user sets input [i] to
    [v]; the input must be on the page, and no input is ever disabled.
    [Back] is the button of the OTP form.  [Settle k o] resumes the k-th
    waiting handler with outcome [o]; what the handler then reads from
    [data] is what the values object holds at that moment.  When the
    effects contain a navigation the component is unmounted: the page
    returned holds the cells as the handler left them, and [reachable]
    and [play] go no further. *)
Definition dispatch (ev : Event) (p : Page) : option (Page * list Effect) :=
  match ev with
  | Submit values =>
      match form (ui p) with
      | Some h =>
          if isLoading (ui p) then None
          else
            match resolver (ui p) values with
            | [] =>
                let '(s1, req) := send h values (ui p) in
                Some (mkPage s1 ∅ values (inflight p ++ [(h, values)]), [req])
            | errs =>
                Some (mkPage (ui p) (toFieldErrors errs) values (inflight p), [])
            end
      | None => None
      end
  | Change i v =>
      if rendered i (ui p)
      then
        let d := setValue i v (formValues p) in
        Some (mkPage (ui p) (revalidate i (ui p) d (errors p)) d (inflight p), [])
      else None
  | Back =>
      if (step (ui p) =? 2)%Z
      then Some (mkPage (setStep 1 (ui p)) (errors p) (formValues p) (inflight p), [])
      else None
  | Settle k o =>
      match inflight p !! k with
      | Some (h, _) =>
          let '(s', effs) := settle h (formValues p) o (ui p) in
          Some (mkPage s' (errors p) (formValues p) (delete k (inflight p)), effs)
      | None => None
      end
  end.

(** The pages of the mounted component.  [navigate('/login')] leaves the
    page: what follows a navigation is no page of the wizard any more. *)
Inductive reachable : Page → Prop :=
| reachable_mount : reachable mount
| reachable_step p ev p' effs :
    reachable p → dispatch ev p = Some (p', effs) → navigations effs = [] →
    reachable p'.

(** The pages reached while no request has been answered with success. *)
Inductive pristine : Page → Prop :=
| pristine_mount : pristine mount
| pristine_step p ev p' effs :
    pristine p → dispatch ev p = Some (p', effs) →
    (∀ k m, ev ≠ Settle k (Resolved true m)) →
    pristine p'.

(** A run of events from a page, with everything it did; no event
    follows a navigation. *)
Fixpoint play (evs : list Event) (p : Page) : option (Page * list Effect) :=
  match evs with
  | [] => Some (p, [])
  | ev :: evs' =>
      match dispatch ev p with
      | Some (p1, effs1) =>
          match navigations effs1, evs' with
          | _ :: _, _ :: _ => None
          | _, _ =>
              match play evs' p1 with
              | Some (p2, effs2) => Some (p2, effs1 ++ effs2)
              | None => None
              end
          end
      | None => None
      end
  end.

(** *** The invariant of WizardState, in the words of the specification

    The stored email is empty exactly in step Email, and a stored email
    that is set never changes. *)
Definition email_empty_iff_step_Email : Prop :=
  ∀ p, reachable p → (email (ui p) = "" ↔ step (ui p) = 1%Z).

Definition email_immutable_once_set : Prop :=
  ∀ p ev p' effs,
    reachable p → email (ui p) ≠ "" →
    dispatch ev p = Some (p', effs) → email (ui p') = email (ui p).

End Wizard.

(** An OTP in the words of the specification: exactly six digits. *)
Definition six_digits (code : string) : bool :=
  Nat.eqb (String.length code) 6 && forallb Pattern.digit (list_ascii_of_string code).

End ForgotPassword.


(** ** The client form ([ClientForm]) *)

Module ClientForm.

(** A [File] picked in the file input: what the schema reads of it. *)
Module File.
Record t : Type := mk {
  name : string;
  type : string;
  size : N
}.
End File.

(** [initialData]: the record that is edited. [id] is the text that the
    template literal of the update url puts in for [initialData.id]. *)
Module Client.
Record t : Type := mk {
  id : string;
  name : string;
  website : string;
  description : string;
  logo : option string
}.
End Client.

(** The props that [handleSubmit] reads. [refreshClientList] tells whether
    the callback was passed. *)
Record Props : Type := mkProps {
  mode : string;
  initialData : option Client.t;
  refreshClientList : bool
}.

(** The object given to [clientSchema.validate]. *)
Module Values.
Record t : Type := mk {
  title : string;
  website : string;
  content : string;
  image : option File.t
}.
End Values.

Record State : Type := mkState {
  title : string;
  website : string;
  content : string;
  imageFile : option File.t;
  imagePreview : option string;
  errors : gmap string string;
  touched : gmap string bool
}.

Definition setErrors (v : gmap string string) (s : State) : State :=
  mkState (title s) (website s) (content s) (imageFile s) (imagePreview s) v (touched s).
Definition setTouched (v : gmap string bool) (s : State) : State :=
  mkState (title s) (website s) (content s) (imageFile s) (imagePreview s) (errors s) v.

Definition resetForm (s : State) : State :=
  mkState "" "" "" None None ∅ ∅.

(** A field of the multipart body: text or a file. *)
Inductive FormValue : Type :=
| Text (s : string)
| Blob (f : File.t).

Definition FormData : Type := list (string * FormValue).

Inductive Effect : Type :=
| PreventDefault
| ToastError (m : string)
| ToastSuccess (m : string)
| Post (url : string) (body : FormData) (headers : list (string * string))
| Put (url : string) (body : FormData) (headers : list (string * string))
| RefreshClientList
| SetIsDrawerOpen (v : bool)
| ConsoleError (m error : string).

(** The awaited request resolves, or rejects and the [await] throws
    [error]. *)
Inductive Outcome : Type :=
| Resolved
| Rejected (error : string).

Definition is_request (e : Effect) : bool :=
  match e with
  | Post _ _ _ | Put _ _ _ => true
  | _ => false
  end.

Definition allowedTypes : list string :=
  ["image/jpeg"; "image/png"; "image/gif"; "image/webp"].

(** The two tests of [image]: [if (!value) return true] first. *)
Definition fileFormat (value : option File.t) : bool :=
  match value with
  | None => true
  | Some f => bool_decide (File.type f ∈ allowedTypes)
  end.

Definition fileSize (value : option File.t) : bool :=
  match value with
  | None => true
  | Some f => (File.size f <=? 2 * 1024 * 1024)%N
  end.

Definition allFields : list string := ["title"; "website"; "content"; "image"].

Section Form.
(** [url_pattern] is the pattern behind yup's [url()]. *)
Variable url_pattern : string → bool.

Definition titleSchema (value : string) : list Yup.ValidationError :=
  Yup.test "title" "Client name is required" (Yup.required value) ++
  Yup.test "title" "Client name cannot exceed 100 characters" (Yup.max 100 value).

Definition websiteSchema (value : string) : list Yup.ValidationError :=
  Yup.test "website" "Website URL is required" (Yup.required value) ++
  Yup.test "website" "Please enter a valid URL (e.g., https://example.com)"
    (Yup.matches url_pattern value) ++
  Yup.test "website" "Website URL cannot exceed 255 characters" (Yup.max 255 value).

Definition contentSchema (value : string) : list Yup.ValidationError :=
  Yup.test "content" "Description is required" (Yup.required value) ++
  Yup.test "content" "Description must be at least 10 characters" (Yup.min 10 value) ++
  Yup.test "content" "Description cannot exceed 1000 characters" (Yup.max 1000 value).

Definition imageSchema (value : option File.t) : list Yup.ValidationError :=
  Yup.test "image" "Only JPG, PNG, GIF and WEBP images are allowed" (fileFormat value) ++
  Yup.test "image" "Image size cannot exceed 2MB" (fileSize value).

(** [clientSchema.validate(v, { abortEarly: false })]: the errors of all
    four fields ([validationError.inner]); none when [v] is valid. *)
Definition clientSchema (v : Values.t) : list Yup.ValidationError :=
  titleSchema (Values.title v) ++
  websiteSchema (Values.website v) ++
  contentSchema (Values.content v) ++
  imageSchema (Values.image v).

Definition values (s : State) : Values.t :=
  Values.mk (title s) (website s) (content s) (imageFile s).

(** [validateForm]: every field touched, then [errors] emptied and [true],
    or [newErrors] filled from [inner] ([newErrors[error.path] =
    error.message], a later error of a field replacing an earlier one) and
    [false]. *)
Definition validateForm (s : State) : State * bool :=
  let allTouched := foldl (λ acc field, <[field := true]> acc) ∅ allFields in
  let s1 := setTouched allTouched s in
  match clientSchema (values s) with
  | [] => (setErrors ∅ s1, true)
  | inner =>
      let newErrors :=
        foldl (λ acc e, <[Yup.path e := Yup.msg e]> acc) (∅ : gmap string string) inner in
      (setErrors newErrors s1, false)
  end.

Definition multipart : list (string * string) :=
  [("Content-Type", "multipart/form-data")].

(** The body built by [handleSubmit]. *)
Definition formData (s : State) : FormData :=
  [("name", Text (title s));
   ("website", Text (website s));
   ("description", Text (content s))] ++
  match imageFile s with
  | Some f => [("logo", Blob f)]
  | None => []
  end.

(** The request of the [try] block and the toast that follows it:
    [mode === "add"], else [mode === "edit" && initialData], else nothing. *)
Definition request (p : Props) (s : State) : option (Effect * Effect) :=
  if bool_decide (mode p = "add") then
    Some (Post "/client/create-client" (formData s) multipart,
          ToastSuccess "Client created successfully!")
  else
    match bool_decide (mode p = "edit"), initialData p with
    | true, Some d =>
        Some (Put ("/client/update-client/" +:+ Client.id d) (formData s) multipart,
              ToastSuccess "Client updated successfully!")
    | _, _ => None
    end.

(** [handleSubmit], the request (when one is made) ending in [o]. *)
Definition handleSubmit (p : Props) (o : Outcome) (s : State) : State * list Effect :=
  let '(s1, isValid) := validateForm s in
  if negb isValid then
    (s1, [PreventDefault; ToastError "Please fix the errors in the form."])
  else
    let done_ :=
      (if refreshClientList p then [RefreshClientList] else []) ++
      [SetIsDrawerOpen false] in
    match request p s with
    | Some (req, toast) =>
        match o with
        | Resolved => (resetForm s1, [PreventDefault; req; toast] ++ done_)
        | Rejected error =>
            (s1, [PreventDefault; req; ConsoleError "Error handling client:" error;
                  ToastError "Failed to save client. Please try again."])
        end
    | None => (resetForm s1, [PreventDefault] ++ done_)
    end.

(** The requests among the effects of [handleSubmit]. *)
Definition requests (effs : list Effect) : list Effect := filter is_request effs.

(** *** Violations of the client schema, in the words of the specification *)

Definition title_violates (s : State) : Prop :=
  title s = "" ∨ (100 < String.length (title s))%nat.

Definition website_violates (s : State) : Prop :=
  website s = "" ∨ url_pattern (website s) = false ∨
  (255 < String.length (website s))%nat.

Definition content_violates (s : State) : Prop :=
  (String.length (content s) < 10)%nat ∨ (1000 < String.length (content s))%nat.

Definition image_violates (s : State) : Prop :=
  ∃ f, imageFile s = Some f ∧
       (File.type f ∉ allowedTypes ∨ (2 * 1024 * 1024 < File.size f)%N).

(** *** The other handlers of the component

    A handler reads the state cells of the render it was created in (its
    closure) and queues updates; an update given as a function ([prev =>
    ...]) is applied to the pending state.  Where the two differ the
    closure is the argument [c] and the pending state the argument [s]. *)

Definition setTitle (v : string) (s : State) : State :=
  mkState v (website s) (content s) (imageFile s) (imagePreview s) (errors s) (touched s).
Definition setWebsite (v : string) (s : State) : State :=
  mkState (title s) v (content s) (imageFile s) (imagePreview s) (errors s) (touched s).
Definition setContent (v : string) (s : State) : State :=
  mkState (title s) (website s) v (imageFile s) (imagePreview s) (errors s) (touched s).
Definition setImageFile (v : option File.t) (s : State) : State :=
  mkState (title s) (website s) (content s) v (imagePreview s) (errors s) (touched s).
Definition setImagePreview (v : option string) (s : State) : State :=
  mkState (title s) (website s) (content s) (imageFile s) v (errors s) (touched s).

(** The four field names that the component passes to [validateField] and
    [handleBlur]. *)
Inductive Field : Type :=
| Title
| Website
| Content
| Image.

Definition fieldName (field : Field) : string :=
  match field with
  | Title => "title"
  | Website => "website"
  | Content => "content"
  | Image => "image"
  end.

(** What a caller may pass as [value] (a text, a [File] for the image) and
    what the schema of the field is given. *)
Definition Arg (field : Field) : Type :=
  match field with
  | Image => File.t
  | _ => string
  end.

Definition Value (field : Field) : Type :=
  match field with
  | Image => option File.t
  | _ => string
  end.

(** [value !== null ? value : field === "image" ? imageFile : field ===
    "content" ? content : field === "website" ? website : title] *)
Definition fieldValue (field : Field) : option (Arg field) → State → Value field :=
  match field as f return option (Arg f) → State → Value f with
  | Image => λ value c, match value with Some file => Some file | None => imageFile c end
  | Content => λ value c, match value with Some v => v | None => content c end
  | Website => λ value c, match value with Some v => v | None => website c end
  | Title => λ value c, match value with Some v => v | None => title c end
  end.

(** [yup.reach(clientSchema, field)] *)
Definition reach (field : Field) : Value field → list Yup.ValidationError :=
  match field as f return Value f → list Yup.ValidationError with
  | Title => titleSchema
  | Website => websiteSchema
  | Content => contentSchema
  | Image => imageSchema
  end.

(** [validateField(field, value = null)], called in a render with state [c]:
    [fieldSchema.validate] stops at the first test that fails and throws
    its message. *)
Definition validateField (field : Field) (value : option (Arg field)) (c s : State)
  : State * bool :=
  match reach field (fieldValue field value c) with
  | [] => (setErrors (<[fieldName field := ""]> (errors s)) s, true)
  | error :: _ =>
      (setErrors (<[fieldName field := Yup.msg error]> (errors s)) s, false)
  end.

(** [handleBlur(field)] *)
Definition handleBlur (field : Field) (s : State) : State :=
  (validateField field None s
     (setTouched (<[fieldName field := true]> (touched s)) s)).1.

(** [touched.title] and the like, read as a condition. *)
Definition isTouched (field : Field) (s : State) : bool :=
  bool_decide (touched s !! fieldName field = Some true).

(** The three [onChange] handlers of the text inputs: the setter, then
    [if (touched.f) validateField("f")], which reads the cell of the
    render, not the value just set. *)
Definition onChangeTitle (v : string) (s : State) : State :=
  let s1 := setTitle v s in
  if isTouched Title s then (validateField Title None s s1).1 else s1.

Definition onChangeWebsite (v : string) (s : State) : State :=
  let s1 := setWebsite v s in
  if isTouched Website s then (validateField Website None s s1).1 else s1.

Definition onChangeContent (v : string) (s : State) : State :=
  let s1 := setContent v s in
  if isTouched Content s then (validateField Content None s s1).1 else s1.

(** [handleRemoveImage]; the second component tells that the value of the
    file input element is emptied as well ([inputRef.current.value = ""]). *)
Definition handleRemoveImage (s : State) : State * bool :=
  (setErrors (<["image" := ""]> (errors s)) (setImagePreview None (setImageFile None s)),
   true).

(** [URL.createObjectURL] of the browser. *)
Variable createObjectURL : File.t → string.

(** [handleImageChange], [file] being [event.target.files[0]]. *)
Definition handleImageChange (file : option File.t) (s : State) : State * bool :=
  match file with
  | Some f =>
      let s1 := setImagePreview (Some (createObjectURL f)) (setImageFile (Some f) s) in
      let s2 := setTouched (<["image" := true]> (touched s1)) s1 in
      ((validateField Image (Some f) s s2).1, false)
  | None => handleRemoveImage s
  end.

(** [x || ""] on a text and [x || null] on an optional text. *)
Definition or_empty (x : string) : string := if bool_decide (x = "") then "" else x.
Definition or_null (x : option string) : option string :=
  match x with
  | Some v => if bool_decide (v = "") then None else Some v
  | None => None
  end.

(** The effect hook on [mode] and [initialData]. *)
Definition useEffect (p : Props) (s : State) : State :=
  match bool_decide (mode p = "edit"), initialData p with
  | true, Some d =>
      setImagePreview (or_null (Client.logo d))
        (setContent (or_empty (Client.description d))
           (setWebsite (or_empty (Client.website d))
              (setTitle (or_empty (Client.name d)) s)))
  | _, _ => if bool_decide (mode p = "add") then resetForm s else s
  end.

(** The message under an input: [errors.f && touched.f && ...]. *)
Definition shown (field : Field) (s : State) : option string :=
  match errors s !! fieldName field with
  | Some m => if bool_decide (m = "") then None else
                if isTouched field s then Some m else None
  | None => None
  end.

End Form.

End ClientForm.


(** ** Sample inputs, for the concrete runs below *)

Module Samples.

Definition user : ForgotPassword.Data.t :=
  ForgotPassword.Data.mk "user@example.com" "" "" "".
Definition other : ForgotPassword.Data.t :=
  ForgotPassword.Data.mk "other@example.com" "" "" "".
Definition not_an_email : ForgotPassword.Data.t :=
  ForgotPassword.Data.mk "user.example.com" "" "" "".
Definition with_otp : ForgotPassword.Data.t :=
  ForgotPassword.Data.mk "user@example.com" "123456" "" "".
Definition with_passwords : ForgotPassword.Data.t :=
  ForgotPassword.Data.mk "user@example.com" "123456" "secret1" "secret1".
Definition with_mismatch : ForgotPassword.Data.t :=
  ForgotPassword.Data.mk "user@example.com" "123456" "secret1" "secret2".

Definition at_otp : ForgotPassword.WizardState :=
  ForgotPassword.mkState 2 "OTP sent" true false "user@example.com".
Definition at_reset : ForgotPassword.WizardState :=
  ForgotPassword.mkState 3 "OTP verified" true false "user@example.com".

(** Email submitted and accepted, then Back. *)
Definition back_to_email : list ForgotPassword.Event :=
  [ForgotPassword.Submit user;
   ForgotPassword.Settle 0 (ForgotPassword.Resolved true "OTP sent");
   ForgotPassword.Back].

Definition page_back_at_email : ForgotPassword.Page :=
  ForgotPassword.mkPage
    (ForgotPassword.mkState 1 "OTP sent" true false "user@example.com") ∅ user [].

(** The same, and another email submitted from there. *)
Definition page_resubmitted : ForgotPassword.Page :=
  ForgotPassword.mkPage
    (ForgotPassword.mkState 1 "" true true "user@example.com") ∅ other
    [(ForgotPassword.HandleEmailSubmit, other)].

Definition page_other_email : ForgotPassword.Page :=
  ForgotPassword.mkPage
    (ForgotPassword.mkState 2 "OTP sent" true false "other@example.com") ∅ other [].

(** The email submitted from the mounted page, the answer not yet in. *)
Definition page_email_pending : ForgotPassword.Page :=
  ForgotPassword.mkPage
    (ForgotPassword.mkState 1 "" false true "") ∅ user
    [(ForgotPassword.HandleEmailSubmit, user)].

(** The email submitted, then the email input changed while the request
    is out, then the answer. *)
Definition edit_while_pending : list ForgotPassword.Event :=
  [ForgotPassword.Submit user;
   ForgotPassword.Change ForgotPassword.EmailInput "other@example.com";
   ForgotPassword.Settle 0 (ForgotPassword.Resolved true "OTP sent")].

Definition logo_png : ClientForm.File.t := ClientForm.File.mk "logo.png" "image/png" 20480.
Definition photo_bmp : ClientForm.File.t := ClientForm.File.mk "photo.bmp" "image/bmp" 2048.

Definition acme : ClientForm.State :=
  ClientForm.mkState "Acme" "https://acme.example.com" "Acme builds anvils."
    (Some logo_png) None ∅ ∅.
Definition acme_no_logo : ClientForm.State :=
  ClientForm.mkState "Acme" "https://acme.example.com" "Acme builds anvils."
    None None ∅ ∅.
Definition untitled : ClientForm.State :=
  ClientForm.mkState "" "acme" "Anvils" (Some photo_bmp) None ∅ ∅.

Definition acme_record : ClientForm.Client.t :=
  ClientForm.Client.mk "42" "Acme" "https://acme.example.com" "Acme builds anvils." None.

Definition page_at_otp : ForgotPassword.Page :=
  ForgotPassword.mkPage at_otp ∅ user [].

Definition blank : ClientForm.State := ClientForm.mkState "" "" "" None None ∅ ∅.
Definition edit_without_record : ClientForm.Props := ClientForm.mkProps "edit" None true.

Definition adding : ClientForm.Props := ClientForm.mkProps "add" None true.
Definition editing : ClientForm.Props := ClientForm.mkProps "edit" (Some acme_record) true.

End Samples.


(** * Properties *)

(** ** The matcher decides the language of a pattern *)

Section PatternProperties.
Import Pattern.

Lemma lang_Void s : lang Void s ↔ False.
Proof. split; [inversion 1 | done]. Qed.

Lemma lang_Eps s : lang Eps s ↔ s = "".
Proof. split; [by inversion 1 | intros ->; constructor]. Qed.

Lemma lang_Class p s : lang (Class p) s ↔ ∃ c, s = String c "" ∧ p c = true.
Proof.
  split.
  - inversion 1; subst. by eexists.
  - intros (c & -> & Hp). by constructor.
Qed.

Lemma lang_Seq r1 r2 s :
  lang (Seq r1 r2) s ↔ ∃ s1 s2, s = s1 +:+ s2 ∧ lang r1 s1 ∧ lang r2 s2.
Proof.
  split.
  - inversion 1; subst. by eexists _, _.
  - intros (s1 & s2 & -> & H1 & H2). by constructor.
Qed.

Lemma lang_Alt r1 r2 s : lang (Alt r1 r2) s ↔ lang r1 s ∨ lang r2 s.
Proof.
  split.
  - inversion 1; subst; auto.
  - intros [H|H]; [by apply lang_alt_l | by apply lang_alt_r].
Qed.

Lemma app_empty_r (s : string) : s +:+ "" = s.
Proof. induction s as [|c s IH]; [done | exact (f_equal (String c) IH)]. Qed.

Lemma app_is_empty (s1 s2 : string) : s1 +:+ s2 = "" → s1 = "" ∧ s2 = "".
Proof. destruct s1; simpl; [done | discriminate]. Qed.

Lemma nullable_lang r : nullable r = true ↔ lang r "".
Proof.
  induction r as [| |p|r1 IH1 r2 IH2|r1 IH1 r2 IH2|r IH]; simpl.
  - rewrite lang_Void. split; [discriminate | done].
  - by rewrite lang_Eps.
  - rewrite lang_Class. split; [discriminate | by intros (c & ? & _)].
  - rewrite andb_true_iff, IH1, IH2, lang_Seq. split.
    + intros [H1 H2]. by exists "", "".
    + intros (s1 & s2 & Hs & H1 & H2). symmetry in Hs.
      apply app_is_empty in Hs as [-> ->]. done.
  - by rewrite orb_true_iff, IH1, IH2, lang_Alt.
  - split; [intros _; constructor | done].
Qed.

Lemma Seq_Void_l r s : lang (Seq Void r) s ↔ False.
Proof. rewrite lang_Seq. split; [|done]. intros (s1 & s2 & _ & H & _). by apply lang_Void in H. Qed.

Lemma Seq_Void_r r s : lang (Seq r Void) s ↔ False.
Proof. rewrite lang_Seq. split; [|done]. intros (s1 & s2 & _ & _ & H). by apply lang_Void in H. Qed.

Lemma Seq_Eps_l r s : lang (Seq Eps r) s ↔ lang r s.
Proof.
  rewrite lang_Seq. split.
  - intros (s1 & s2 & -> & H1 & H2). by apply lang_Eps in H1 as ->.
  - intros H. exists "", s. split; [done|]. split; [constructor | done].
Qed.

Lemma Seq_Eps_r r s : lang (Seq r Eps) s ↔ lang r s.
Proof.
  rewrite lang_Seq. split.
  - intros (s1 & s2 & -> & H1 & H2). apply lang_Eps in H2 as ->. by rewrite app_empty_r.
  - intros H. exists s, "". split; [by rewrite app_empty_r|]. split; [done | constructor].
Qed.

Lemma seq_lang r1 r2 s : lang (seq r1 r2) s ↔ lang (Seq r1 r2) s.
Proof.
  destruct r1, r2; simpl;
    rewrite ?Seq_Void_l, ?Seq_Void_r, ?Seq_Eps_l, ?Seq_Eps_r, ?lang_Void; done.
Qed.

Lemma alt_lang r1 r2 s : lang (alt r1 r2) s ↔ lang (Alt r1 r2) s.
Proof.
  rewrite lang_Alt.
  destruct r1, r2; simpl; rewrite ?lang_Void, ?lang_Alt; tauto.
Qed.

(** A non-empty word of r* starts with a non-empty word of r. *)
Lemma lang_Star_cons r c s :
  lang (Star r) (String c s) ↔
  ∃ s1 s2, s = s1 +:+ s2 ∧ lang r (String c s1) ∧ lang (Star r) s2.
Proof.
  split.
  - intros H. remember (Star r) as r' eqn:Er. remember (String c s) as w eqn:Ew.
    revert c s Ew. induction H as [| | | | | |r0 s1 s2 H1 _ H2 IH2]; intros a w' Ew;
      try discriminate.
    injection Er as ->. destruct s1 as [|c1 s1]; simpl in Ew.
    + by apply IH2.
    + injection Ew as -> <-. by exists s1, s2.
  - intros (s1 & s2 & -> & H1 & H2).
    change (String c (s1 +:+ s2)) with (String c s1 +:+ s2). by constructor.
Qed.

Lemma deriv_lang r : ∀ c s, lang (deriv c r) s ↔ lang r (String c s).
Proof.
  induction r as [| |p|r1 IH1 r2 IH2|r1 IH1 r2 IH2|r IH]; intros c s; simpl.
  - by rewrite !lang_Void.
  - rewrite lang_Void, lang_Eps. split; [done | discriminate].
  - rewrite lang_Class. destruct (p c) eqn:Hp.
    + rewrite lang_Eps. split.
      * intros ->. by exists c.
      * by intros (c' & [= <- ->] & _).
    + rewrite lang_Void. split; [done|]. intros (c' & [= <- ->] & Hp'). congruence.
  - assert (Hseq : lang (seq (deriv c r1) r2) s ↔
                   ∃ s1 s2, s = s1 +:+ s2 ∧ lang r1 (String c s1) ∧ lang r2 s2).
    { rewrite seq_lang, lang_Seq. by setoid_rewrite IH1. }
    rewrite lang_Seq. destruct (nullable r1) eqn:Hn.
    + rewrite alt_lang, lang_Alt, Hseq, IH2. split.
      * intros [(s1 & s2 & -> & H1 & H2)|H2].
        -- by exists (String c s1), s2.
        -- exists "", (String c s). split; [done|]. split; [by apply nullable_lang | done].
      * intros (s1 & s2 & Hs & H1 & H2). destruct s1 as [|c1 s1]; simpl in Hs.
        -- right. by rewrite Hs.
        -- injection Hs as <- ->. left. by exists s1, s2.
    + rewrite Hseq. split.
      * intros (s1 & s2 & -> & H1 & H2). by exists (String c s1), s2.
      * intros (s1 & s2 & Hs & H1 & H2). destruct s1 as [|c1 s1]; simpl in Hs.
        -- apply nullable_lang in H1. congruence.
        -- injection Hs as <- ->. by exists s1, s2.
  - by rewrite alt_lang, !lang_Alt, IH1, IH2.
  - rewrite seq_lang, lang_Seq, lang_Star_cons. by setoid_rewrite IH.
Qed.

(** [matches] decides the language of the pattern. *)
Lemma matches_lang s : ∀ r, matches r s = true ↔ lang r s.
Proof.
  induction s as [|c s IH]; intros r; simpl.
  - apply nullable_lang.
  - by rewrite IH, deriv_lang.
Qed.

End PatternProperties.

(** ** The yup tests *)

Lemma test_passes field message b : Yup.test field message b = [] ↔ b = true.
Proof. destruct b; simpl; split; congruence. Qed.

Lemma test_fails field message b :
  b = false → Yup.test field message b = [(field, message)].
Proof. intros ->. reflexivity. Qed.

Lemma required_nonempty value : Yup.required value = true ↔ value ≠ "".
Proof.
  unfold Yup.required. destruct value as [|c value]; simpl.
  - split; [discriminate | congruence].
  - split; [discriminate | reflexivity].
Qed.

Lemma matches_nonempty pattern value :
  value ≠ "" → Yup.matches pattern value = pattern value.
Proof.
  intros Hne. unfold Yup.matches.
  rewrite bool_decide_eq_false_2 by assumption. reflexivity.
Qed.

Lemma length_spec n value : Yup.length n value = true ↔ String.length value = n.
Proof. unfold Yup.length. apply Nat.eqb_eq. Qed.

Lemma min_spec n value : Yup.min n value = true ↔ (n ≤ String.length value)%nat.
Proof. unfold Yup.min. apply Nat.leb_le. Qed.

Lemma max_spec n value : Yup.max n value = true ↔ (String.length value ≤ n)%nat.
Proof. unfold Yup.max. apply Nat.leb_le. Qed.

Lemma oneOf_ref_spec other value : Yup.oneOf_ref other value = true ↔ value = other.
Proof. unfold Yup.oneOf_ref. apply bool_decide_eq_true. Qed.

(** ** The wizard *)

Section WizardProperties.
Import ForgotPassword.
Variable email_pattern : string → bool.

Abbreviation emailSchema := (emailSchema email_pattern).
Abbreviation resolver := (resolver email_pattern).
Abbreviation handleSubmit := (handleSubmit email_pattern).
Abbreviation onSubmit := (onSubmit email_pattern).
Abbreviation dispatch := (dispatch email_pattern).
Abbreviation reachable := (reachable email_pattern).
Abbreviation pristine := (pristine email_pattern).
Abbreviation play := (play email_pattern).

(** *** What the three schemas accept *)

Lemma emailSchema_valid v :
  emailSchema v = [] ↔ Data.email v ≠ "" ∧ email_pattern (Data.email v) = true.
Proof.
  unfold ForgotPassword.emailSchema.
  rewrite app_nil, !test_passes, required_nonempty. split.
  - intros [Hm Hne]. split; [assumption|]. by rewrite matches_nonempty in Hm.
  - intros [Hne Hp]. split; [|assumption]. by rewrite matches_nonempty.
Qed.

Lemma emailSchema_rejects v :
  email_pattern (Data.email v) = false → emailSchema v ≠ [].
Proof.
  intros Hp Hv. apply emailSchema_valid in Hv as [_ Hv]. congruence.
Qed.

Lemma otpSchema_valid v : otpSchema v = [] ↔ String.length (Data.otp v) = 6.
Proof.
  unfold otpSchema. rewrite app_nil, !test_passes, length_spec, required_nonempty.
  split; [tauto|]. intros H. split; [assumption|].
  intros E. rewrite E in H. discriminate.
Qed.

Lemma passwordSchema_valid v :
  passwordSchema v = [] ↔
  (6 ≤ String.length (Data.newPassword v))%nat ∧
  Data.confirmNewPassword v = Data.newPassword v.
Proof.
  unfold passwordSchema.
  rewrite !app_nil, !test_passes, min_spec, required_nonempty.
  destruct (Yup.oneOf_ref (Data.newPassword v) (Data.confirmNewPassword v)) eqn:E.
  - apply oneOf_ref_spec in E. rewrite test_passes, required_nonempty, E.
    split; [tauto|]. intros [Hlen _].
    assert (Data.newPassword v ≠ "")
      by (intros E'; rewrite E' in Hlen; simpl in Hlen; lia).
    tauto.
  - split; [intros (_ & _ & ?); discriminate|]. intros [_ Heq].
    apply oneOf_ref_spec in Heq. congruence.
Qed.

(** *** The resolver and the form follow the step *)

Lemma resolver_step1 s : step s = 1%Z → resolver s = emailSchema.
Proof. intros H. unfold ForgotPassword.resolver. by rewrite H. Qed.

Lemma resolver_step2 s : step s = 2%Z → resolver s = otpSchema.
Proof. intros H. unfold ForgotPassword.resolver. by rewrite H. Qed.

Lemma resolver_step3 s : step s = 3%Z → resolver s = passwordSchema.
Proof. intros H. unfold ForgotPassword.resolver. by rewrite H. Qed.

Lemma form_Some s h :
  form s = Some h →
  (h = HandleEmailSubmit ∧ step s = 1%Z) ∨
  (h = HandleOtpSubmit ∧ step s = 2%Z) ∨
  (h = HandlePasswordReset ∧ step s = 3%Z).
Proof.
  unfold form.
  destruct (Z.eqb_spec (step s) 1); [intros [= <-]; auto|].
  destruct (Z.eqb_spec (step s) 2); [intros [= <-]; auto|].
  destruct (Z.eqb_spec (step s) 3); [intros [= <-]; auto|]. discriminate.
Qed.

Lemma form_step1 s : step s = 1%Z → form s = Some HandleEmailSubmit.
Proof. intros H. unfold form. by rewrite H. Qed.

Lemma form_step2 s : step s = 2%Z → form s = Some HandleOtpSubmit.
Proof. intros H. unfold form. by rewrite H. Qed.

Lemma form_step3 s : step s = 3%Z → form s = Some HandlePasswordReset.
Proof. intros H. unfold form. by rewrite H. Qed.

(** A submission that the resolver rejects calls no handler. *)
Lemma handleSubmit_invalid h values values' o s :
  resolver s values ≠ [] → handleSubmit h values values' o s = (s, []).
Proof.
  intros H. unfold ForgotPassword.handleSubmit.
  destruct (resolver s values); [congruence | reflexivity].
Qed.

Lemma handleSubmit_valid h values values' o s :
  resolver s values = [] →
  handleSubmit h values values' o s = run h values values' o s.
Proof. intros H. unfold ForgotPassword.handleSubmit. by rewrite H. Qed.

(** *** What the handlers leave alone *)

Lemma send_step h data s : step (send h data s).1 = step s.
Proof. by destruct h. Qed.

Lemma send_email h data s : email (send h data s).1 = email s.
Proof. by destruct h. Qed.

Lemma send_is_post h data s : is_post (send h data s).2 = true.
Proof. by destruct h. Qed.

Lemma run_unfold h data data' o s :
  run h data data' o s =
  ((settle h data' o (send h data s).1).1,
   (send h data s).2 :: (settle h data' o (send h data s).1).2).
Proof.
  unfold run. destruct (send h data s) as [s1 req]. simpl.
  by destruct (settle h data' o s1).
Qed.

Lemma onSubmit_form h values values' o s :
  form s = Some h → onSubmit values values' o s = handleSubmit h values values' o s.
Proof. intros H. unfold ForgotPassword.onSubmit. by rewrite H. Qed.

Lemma settle_resolved_false h data m s :
  settle h data (Resolved false m) s =
  (setIsLoading false (setSuccess false (setMessage m s)), []).
Proof. by destruct h. Qed.

Lemma settle_rejected_step h data error s :
  step (settle h data (Rejected error) s).1 = step s ∧
  success (settle h data (Rejected error) s).1 = false ∧
  isLoading (settle h data (Rejected error) s).1 = false ∧
  (settle h data (Rejected error) s).2 = [].
Proof. by destruct h. Qed.

(** *** Local validation of the OTP *)

(** An OTP whose length is not 6 is rejected and nothing is sent. *)
Lemma submitOtp_wrong_length_blocked values values' o s :
  step s = 2%Z → String.length (Data.otp values) ≠ 6 →
  onSubmit values values' o s = (s, []).
Proof.
  intros Hs Hlen. rewrite (onSubmit_form HandleOtpSubmit) by by apply form_step2.
  apply handleSubmit_invalid. rewrite resolver_step2 by done.
  by rewrite otpSchema_valid.
Qed.

(** The verify-otp request is sent exactly when the OTP has six code units,
    whatever they are. *)
Lemma submitOtp_sends_iff_length_six values values' o s :
  step s = 2%Z →
  (requests (onSubmit values values' o s).2 ≠ [] ↔ String.length (Data.otp values) = 6).
Proof.
  intros Hs. rewrite (onSubmit_form HandleOtpSubmit) by by apply form_step2.
  destruct (decide (String.length (Data.otp values) = 6)) as [Hlen|Hlen].
  - rewrite handleSubmit_valid by (rewrite resolver_step2 by done; by apply otpSchema_valid).
    split; [done|]. intros _. by destruct o as [[] ?|?].
  - rewrite handleSubmit_invalid by (rewrite resolver_step2 by done; by rewrite otpSchema_valid).
    simpl. split; [done|]. intros ?. contradiction.
Qed.

(** C2, on the code: the six letters abcdef are not six digits, yet the OTP
    form accepts them and the verify-otp request is sent with them.  The
    schema tests the length only. *)
Theorem submitOtp_sends_six_letters values' o :
  six_digits "abcdef" = false ∧
  resolver (mkState 2 "" false false "user@example.com")
    (Data.mk "" "abcdef" "" "") = [] ∧
  requests
    (onSubmit (Data.mk "" "abcdef" "" "") values' o
       (mkState 2 "" false false "user@example.com")).2 =
  [Post "/auth/verify-otp" [("email", "user@example.com"); ("otp", "abcdef")]].
Proof.
  split; [reflexivity|]. split; [reflexivity|].
  by destruct o as [[] ?|?].
Qed.

(** *** Submitting the email *)

(** An email that passes validation, answered by request-otp with
    success = true, moves the wizard from step Email (1) to step Otp (2);
    one request was sent, carrying the email that was submitted.  The
    email that is stored is the one the values object holds when the
    answer arrives ([setEmail(data.email)] after the [await]): the
    submitted one when the input was left alone meanwhile. *)
Lemma submitEmail_success_stores_live_email values values' m s :
  step s = 1%Z → emailSchema values = [] →
  let r := onSubmit values values' (Resolved true m) s in
  step r.1 = 2%Z ∧
  email r.1 = Data.email values' ∧
  r.2 = [Post "/auth/forgot-password" [("email", Data.email values)]].
Proof.
  intros Hs Hv r. subst r.
  rewrite (onSubmit_form HandleEmailSubmit) by by apply form_step1.
  rewrite handleSubmit_valid by by rewrite resolver_step1.
  done.
Qed.

(** C5: an input that fails the email pattern is stopped by the resolver of
    the email form: the handler is not called, the state is unchanged and
    no request leaves, neither in a whole submission nor as an event of the
    page. *)
Theorem submitEmail_invalid_sends_nothing values values' o s :
  step s = 1%Z → email_pattern (Data.email values) = false →
  onSubmit values values' o s = (s, []) ∧
  ∀ p p' effs,
    ui p = s → dispatch (Submit values) p = Some (p', effs) →
    effs = [] ∧ inflight p' = inflight p ∧ ui p' = s.
Proof.
  intros Hs Hp.
  assert (Hr : resolver s values ≠ []).
  { rewrite resolver_step1 by done. by apply emailSchema_rejects. }
  split.
  - rewrite (onSubmit_form HandleEmailSubmit) by by apply form_step1.
    by apply handleSubmit_invalid.
  - intros p p' effs <-. simpl.
    rewrite form_step1 by done.
    destruct (isLoading (ui p)); [discriminate|].
    destruct (resolver (ui p) values) as [|e errs] eqn:E; [done|].
    by intros [= <- <-].
Qed.

(** *** Answers of the server *)

(** C4: when the request of a submit step is answered with success = false
    and message m, the step is the one before the submission, the message
    cell holds m, success is false, and the banner (shown for a message
    that is not empty) shows m in the error colours. *)
Theorem remote_rejection_keeps_step h values values' m s :
  form s = Some h → resolver s values = [] →
  let r := onSubmit values values' (Resolved false m) s in
  step r.1 = step s ∧
  message r.1 = m ∧
  success r.1 = false ∧
  (m ≠ "" → banner r.1 = Some (m, false)).
Proof.
  intros Hf Hv r. subst r.
  rewrite (onSubmit_form h), handleSubmit_valid, run_unfold by done.
  rewrite settle_resolved_false. simpl. rewrite send_step.
  repeat split. intros Hm. unfold banner. simpl.
  by rewrite bool_decide_eq_false_2.
Qed.

(** C8: when the request of a submit step throws, the exception is caught:
    the message is the fixed retry text of that handler, whatever was
    thrown, success is false, the step is unchanged, loading is switched
    off, and the effects of the whole submission are the one request that
    was sent: nothing is sent again. *)
Theorem transport_error_keeps_step h values values' error s :
  form s = Some h → resolver s values = [] →
  let r := onSubmit values values' (Rejected error) s in
  step r.1 = step s ∧
  success r.1 = false ∧
  isLoading r.1 = false ∧
  message r.1 =
    match h with
    | HandleEmailSubmit => "Something went wrong. Please try again."
    | HandleOtpSubmit => "Error verifying OTP. Please try again."
    | HandlePasswordReset => "Error resetting password. Please try again."
    end ∧
  r.2 = [(send h values s).2] ∧ requests r.2 = [(send h values s).2].
Proof.
  intros Hf Hv r. subst r.
  rewrite (onSubmit_form h), handleSubmit_valid, run_unfold by done.
  by destruct h.
Qed.

(** *** Resetting the password *)

(** C6: in the reset form a request leaves only when newPassword has at
    least 6 code units and confirmNewPassword equals it; when the two
    differ the submission does nothing, whatever the server would have
    answered. *)
Theorem submitReset_requires_matching_pair values values' o s :
  step s = 3%Z →
  (requests (onSubmit values values' o s).2 ≠ [] →
   (6 ≤ String.length (Data.newPassword values))%nat ∧
   Data.confirmNewPassword values = Data.newPassword values) ∧
  (Data.confirmNewPassword values ≠ Data.newPassword values →
   onSubmit values values' o s = (s, [])).
Proof.
  intros Hs. rewrite (onSubmit_form HandlePasswordReset) by by apply form_step3.
  split.
  - destruct (decide (passwordSchema values = [])) as [Hv|Hv].
    + intros _. by apply passwordSchema_valid.
    + rewrite handleSubmit_invalid by by rewrite resolver_step3. done.
  - intros Hne. apply handleSubmit_invalid. rewrite resolver_step3 by done.
    rewrite passwordSchema_valid. tauto.
Qed.

(** C7: a valid reset answered with success = true puts the wizard back in
    step Email (1) and navigates once, to /login; a reset that is rejected
    by validation, answered with success = false or ended by an exception
    navigates nowhere. *)
Theorem submitReset_navigates_once_on_success values values' o s :
  step s = 3%Z →
  let r := onSubmit values values' o s in
  (∀ m, passwordSchema values = [] → o = Resolved true m →
        step r.1 = 1%Z ∧ navigations r.2 = [Navigate "/login"]) ∧
  (passwordSchema values ≠ [] ∨ (∀ m, o ≠ Resolved true m) →
   navigations r.2 = []).
Proof.
  intros Hs r. subst r.
  rewrite (onSubmit_form HandlePasswordReset) by by apply form_step3.
  split.
  - intros m Hv ->. rewrite handleSubmit_valid by by rewrite resolver_step3. done.
  - intros [Hv|Ho].
    + rewrite handleSubmit_invalid by by rewrite resolver_step3. done.
    + destruct (decide (passwordSchema values = [])) as [Hv|Hv].
      * rewrite handleSubmit_valid by by rewrite resolver_step3.
        destruct o as [[] m|e]; [by destruct (Ho m) | done | done].
      * rewrite handleSubmit_invalid by by rewrite resolver_step3. done.
Qed.

(** *** The stored email across the events of the page *)

(** The stored email changes in one place only: where handleEmailSubmit
    resumes after an answer with success = true; it then takes the email
    that the values object holds at that moment. *)
Lemma dispatch_email ev p p' effs :
  dispatch ev p = Some (p', effs) →
  email (ui p') = email (ui p) ∨
  ∃ k data m,
    ev = Settle k (Resolved true m) ∧
    inflight p !! k = Some (HandleEmailSubmit, data) ∧
    email (ui p') = Data.email (formValues p).
Proof.
  destruct ev as [values|i v| |k o]; simpl.
  - destruct (form (ui p)) as [h|]; [|discriminate].
    destruct (isLoading (ui p)); [discriminate|].
    destruct (resolver (ui p) values).
    + pose proof (send_email h values (ui p)) as He.
      destruct (send h values (ui p)) as [s1 req]. intros [= <- <-]. by left.
    + intros [= <- <-]. by left.
  - destruct (rendered i (ui p)); [|discriminate]. intros [= <- <-]. by left.
  - destruct (step (ui p) =? 2)%Z; [|discriminate]. intros [= <- <-]. by left.
  - destruct (inflight p !! k) as [[h data]|] eqn:Hk; [|discriminate].
    destruct h, o as [[] m|e]; simpl; intros [= <- <-]; simpl; auto.
    right. by exists k, data, m.
Qed.

(** Until a request is answered with success the wizard stays as it was
    mounted: no email stored, step 1. *)
Lemma pristine_cells p : pristine p → email (ui p) = "" ∧ step (ui p) = 1%Z.
Proof.
  induction 1 as [|p ev p' effs _ [He Hs] Hd Hev]; [done|].
  destruct ev as [values|i v| |k o]; simpl in Hd.
  - destruct (form (ui p)) as [h|]; [|discriminate].
    destruct (isLoading (ui p)); [discriminate|].
    destruct (resolver (ui p) values).
    + pose proof (send_email h values (ui p)) as He'.
      pose proof (send_step h values (ui p)) as Hs'.
      destruct (send h values (ui p)) as [s1 req]. injection Hd as <- <-.
      simpl in *. by rewrite He', Hs'.
    + by injection Hd as <- <-.
  - destruct (rendered i (ui p)); [|discriminate]. by injection Hd as <- <-.
  - rewrite Hs in Hd. discriminate.
  - destruct (inflight p !! k) as [[h data]|]; [|discriminate].
    destruct h, o as [[] m|e]; try (by destruct (Hev k m));
      by injection Hd as <- <-.
Qed.

Lemma play_reachable evs : ∀ p p' effs,
  reachable p → play evs p = Some (p', effs) → navigations effs = [] →
  reachable p'.
Proof.
  induction evs as [|ev evs IH]; intros p p' effs Hp; simpl.
  - by intros [= <- _].
  - destruct (dispatch ev p) as [[p1 effs1]|] eqn:Hd; [|discriminate].
    assert (Hplay : match play evs p1 with
                    | Some (p2, effs2) => Some (p2, effs1 ++ effs2)
                    | None => None
                    end = Some (p', effs) →
                    navigations effs = [] → reachable p').
    { destruct (play evs p1) as [[p2 effs2]|] eqn:Hplay; [|discriminate].
      intros [= <- <-] Hn. unfold navigations in Hn. rewrite filter_app in Hn.
      apply app_nil in Hn as [Hn1 Hn2].
      eapply IH; [|exact Hplay|exact Hn2]. by eapply reachable_step. }
    destruct (navigations effs1) as [|n ns] eqn:Hn1; [exact Hplay|].
    destruct evs as [|ev' evs']; [exact Hplay | discriminate].
Qed.

(** The loading flag: a handler waits only while isLoading is set, and
    at most one waits; the step is 1, 2 or 3. *)
Lemma dispatch_one_inflight ev p p' effs :
  (isLoading (ui p) = false → inflight p = []) ∧
  (length (inflight p) ≤ 1)%nat ∧
  (step (ui p) = 1 ∨ step (ui p) = 2 ∨ step (ui p) = 3)%Z →
  dispatch ev p = Some (p', effs) →
  (isLoading (ui p') = false → inflight p' = []) ∧
  (length (inflight p') ≤ 1)%nat ∧
  (step (ui p') = 1 ∨ step (ui p') = 2 ∨ step (ui p') = 3)%Z.
Proof.
  intros (Hl & Hn & Hs) Hd.
  destruct ev as [values|i v| |k o]; simpl in Hd.
  - destruct (form (ui p)) as [h|] eqn:Hf; [|discriminate].
    destruct (isLoading (ui p)) eqn:Hload; [discriminate|].
    rewrite (Hl eq_refl) in *.
    destruct (resolver (ui p) values).
    + pose proof (send_step h values (ui p)) as Hst.
      destruct h; injection Hd as <- <-; simpl in *;
        (split; [done|]; split; [lia | done]).
    + injection Hd as <- <-. simpl. rewrite Hload. auto.
  - destruct (rendered i (ui p)); [|discriminate]. injection Hd as <- <-.
    simpl. auto.
  - destruct (step (ui p) =? 2)%Z; [|discriminate]. injection Hd as <- <-.
    simpl. auto.
  - destruct (inflight p) as [|c [|c' l]] eqn:Hin; simpl in Hn; [| |lia].
    + by rewrite lookup_nil in Hd.
    + destruct k as [|k]; simpl in Hd; [|discriminate].
      destruct c as [h data].
      destruct h, o as [[] m|e]; injection Hd as <- <-; simpl;
        (split; [done|]; split; [lia | auto]).
Qed.

Lemma reachable_one_inflight p :
  reachable p →
  (isLoading (ui p) = false → inflight p = []) ∧
  (length (inflight p) ≤ 1)%nat ∧
  (step (ui p) = 1 ∨ step (ui p) = 2 ∨ step (ui p) = 3)%Z.
Proof.
  induction 1 as [|p ev p' effs _ IH Hd _]; [by auto|].
  by eapply dispatch_one_inflight.
Qed.

(** A submission that passes the resolver, as events of the page: the
    request leaves at [Submit], and when it settles the page is in the
    state that [onSubmit] computes in one go, the values object being
    what it was at the submission when no input was changed in between. *)
Lemma onSubmit_as_events values o p h :
  isLoading (ui p) = false → form (ui p) = Some h → resolver (ui p) values = [] →
  ∃ p1 req effs,
    dispatch (Submit values) p = Some (p1, [req]) ∧
    dispatch (Settle (length (inflight p)) o) p1 =
      Some (mkPage (onSubmit values values o (ui p)).1 ∅ values (inflight p), effs) ∧
    (onSubmit values values o (ui p)).2 = req :: effs.
Proof.
  intros Hl Hf Hv. rewrite (onSubmit_form h), handleSubmit_valid, run_unfold by done.
  simpl. rewrite Hf, Hl, Hv.
  destruct (send h values (ui p)) as [s1 req]. simpl.
  destruct (settle h values o s1) as [s2 effs] eqn:Hsettle.
  exists (mkPage s1 ∅ values (inflight p ++ [(h, values)])), req, effs.
  split; [reflexivity|]. simpl.
  rewrite lookup_app_r, Nat.sub_diag by done. simpl. rewrite Hsettle.
  rewrite delete_middle, !app_nil_r. split; reflexivity.
Qed.

(** An answer with success = false, whenever it arrives: the step of that
    moment is kept and nothing is sent. *)
Lemma settle_event_keeps_step k o p p' effs :
  (∀ m, o ≠ Resolved true m) →
  dispatch (Settle k o) p = Some (p', effs) →
  step (ui p') = step (ui p) ∧ success (ui p') = false ∧ effs = [].
Proof.
  intros Ho. simpl.
  destruct (inflight p !! k) as [[h data]|]; [|discriminate].
  destruct h, o as [[] m|e]; try (by destruct (Ho m));
    simpl; intros [= <- <-]; done.
Qed.


End WizardProperties.


(** ** The client form *)

(** [newErrors] after the loop over [inner]: a field with no error has no
    entry, a field with errors has the message of one of them. *)
Lemma newErrors_absent (inner : list Yup.ValidationError) field :
  ∀ acc : gmap string string,
    (∀ e, e ∈ inner → Yup.path e ≠ field) →
    foldl (λ acc e, <[Yup.path e := Yup.msg e]> acc) acc inner !! field = acc !! field.
Proof.
  induction inner as [|e inner IH]; intros acc Hno; simpl; [reflexivity|].
  rewrite IH by (intros e' He'; apply Hno; by right).
  apply lookup_insert_ne. apply Hno. by left.
Qed.

Lemma newErrors_present (inner : list Yup.ValidationError) field :
  ∀ acc : gmap string string,
    (∃ e, e ∈ inner ∧ Yup.path e = field) →
    ∃ m, foldl (λ acc e, <[Yup.path e := Yup.msg e]> acc) acc inner !! field = Some m
         ∧ (field, m) ∈ inner.
Proof.
  induction inner as [|e inner IH] using rev_ind; intros acc [e' [He' Hp]].
  - by apply elem_of_nil in He'.
  - rewrite foldl_app. simpl.
    destruct (decide (Yup.path e = field)) as [Heq|Hne].
    + exists (Yup.msg e). rewrite <- Heq, lookup_insert_eq. split; [done|].
      apply elem_of_app. right. destruct e. simpl. by left.
    + rewrite lookup_insert_ne by done.
      apply elem_of_app in He' as [He'|He'].
      * destruct (IH acc) as [m [Hm Hin]]; [by exists e'|].
        exists m. split; [done|]. apply elem_of_app. by left.
      * apply list_elem_of_singleton in He'. congruence.
Qed.

Section ClientFormProperties.
Import ClientForm.
Variable url_pattern : string → bool.

Abbreviation websiteSchema := (websiteSchema url_pattern).
Abbreviation clientSchema := (clientSchema url_pattern).
Abbreviation validateForm := (validateForm url_pattern).
Abbreviation handleSubmit := (handleSubmit url_pattern).
Abbreviation website_violates := (website_violates url_pattern).

(** *** The four field schemas against the violations *)

Lemma titleSchema_valid value :
  titleSchema value = [] ↔ value ≠ "" ∧ (String.length value ≤ 100)%nat.
Proof.
  unfold titleSchema. by rewrite app_nil, !test_passes, required_nonempty, max_spec.
Qed.

Lemma websiteSchema_valid value :
  websiteSchema value = [] ↔
  value ≠ "" ∧ url_pattern value = true ∧ (String.length value ≤ 255)%nat.
Proof.
  unfold ClientForm.websiteSchema.
  rewrite !app_nil, !test_passes, required_nonempty, max_spec.
  split.
  - intros (Hne & Hm & Hl). by rewrite matches_nonempty in Hm.
  - intros (Hne & Hm & Hl). by rewrite matches_nonempty.
Qed.

Lemma contentSchema_valid value :
  contentSchema value = [] ↔
  (10 ≤ String.length value)%nat ∧ (String.length value ≤ 1000)%nat.
Proof.
  unfold contentSchema.
  rewrite !app_nil, !test_passes, required_nonempty, min_spec, max_spec.
  split; [tauto|]. intros [Hmin Hmax]. repeat split; try done.
  intros E. rewrite E in Hmin. simpl in Hmin. lia.
Qed.

Lemma imageSchema_valid value :
  imageSchema value = [] ↔
  ∀ f, value = Some f →
       File.type f ∈ allowedTypes ∧ (File.size f ≤ 2 * 1024 * 1024)%N.
Proof.
  unfold imageSchema. rewrite app_nil, !test_passes.
  destruct value as [f|]; simpl.
  - rewrite bool_decide_eq_true, N.leb_le. split.
    + intros H f' [= <-]. exact H.
    + intros H. by apply H.
  - split; [intros _ f; discriminate | done].
Qed.

(** An absent image passes both tests of [image]. *)
Lemma imageSchema_absent : imageSchema None = [].
Proof. reflexivity. Qed.

Lemma title_violates_iff s : title_violates s ↔ titleSchema (title s) ≠ [].
Proof.
  unfold title_violates. rewrite titleSchema_valid. split.
  - intros [E|Hlt] [Hne Hle]; [done | lia].
  - intros H. destruct (decide (title s = "")); [by left|].
    right. apply Nat.lt_nge. intros Hle. by apply H.
Qed.

Lemma website_violates_iff s : website_violates s ↔ websiteSchema (website s) ≠ [].
Proof.
  unfold ClientForm.website_violates. rewrite websiteSchema_valid. split.
  - intros [E|[Hp|Hlt]] (Hne & Hu & Hle); [done | congruence | lia].
  - intros H. destruct (decide (website s = "")); [by left|].
    destruct (url_pattern (website s)) eqn:Hu; [|right; by left].
    right. right. apply Nat.lt_nge. intros Hle. by apply H.
Qed.

Lemma content_violates_iff s : content_violates s ↔ contentSchema (content s) ≠ [].
Proof. unfold content_violates. rewrite contentSchema_valid. lia. Qed.

Lemma image_violates_iff s : image_violates s ↔ imageSchema (imageFile s) ≠ [].
Proof.
  unfold image_violates. rewrite imageSchema_valid. split.
  - intros (f & Hf & Hbad) H. destruct (H f Hf) as [Ht Hs].
    destruct Hbad as [Hbad|Hbad]; [done|lia].
  - intros H. destruct (imageFile s) as [f|]; [|by destruct H].
    exists f. split; [done|].
    destruct (decide (File.type f ∈ allowedTypes)); [|by left].
    right. apply N.lt_nge. intros Hle. apply H. by intros f' [= <-].
Qed.

(** *** The errors of a field carry its path *)

Lemma test_path e field message b : e ∈ Yup.test field message b → Yup.path e = field.
Proof.
  destruct b; simpl; [intros H; by apply elem_of_nil in H|].
  intros H. apply list_elem_of_singleton in H. by subst e.
Qed.

Lemma titleSchema_path e value : e ∈ titleSchema value → Yup.path e = "title".
Proof.
  unfold titleSchema. rewrite !elem_of_app.
  intros [H|H]; by apply test_path in H.
Qed.

Lemma websiteSchema_path e value : e ∈ websiteSchema value → Yup.path e = "website".
Proof.
  unfold ClientForm.websiteSchema. rewrite !elem_of_app.
  intros [H|[H|H]]; by apply test_path in H.
Qed.

Lemma contentSchema_path e value : e ∈ contentSchema value → Yup.path e = "content".
Proof.
  unfold contentSchema. rewrite !elem_of_app.
  intros [H|[H|H]]; by apply test_path in H.
Qed.

Lemma imageSchema_path e value : e ∈ imageSchema value → Yup.path e = "image".
Proof.
  unfold imageSchema. rewrite !elem_of_app.
  intros [H|H]; by apply test_path in H.
Qed.

Lemma clientSchema_elem e v :
  e ∈ clientSchema v ↔
  e ∈ titleSchema (Values.title v) ∨ e ∈ websiteSchema (Values.website v) ∨
  e ∈ contentSchema (Values.content v) ∨ e ∈ imageSchema (Values.image v).
Proof. unfold ClientForm.clientSchema. by rewrite !elem_of_app. Qed.

Lemma clientSchema_valid v :
  clientSchema v = [] ↔
  titleSchema (Values.title v) = [] ∧ websiteSchema (Values.website v) = [] ∧
  contentSchema (Values.content v) = [] ∧ imageSchema (Values.image v) = [].
Proof. unfold ClientForm.clientSchema. by rewrite !app_nil. Qed.

Lemma nonempty_elem {A} (l : list A) : l ≠ [] → ∃ x, x ∈ l.
Proof. destruct l as [|x l]; [done|]. intros _. exists x. by left. Qed.

(** *** validateForm *)

Lemma validateForm_true s :
  (validateForm s).2 = true ↔ clientSchema (values s) = [].
Proof.
  unfold ClientForm.validateForm. destruct (clientSchema (values s)); simpl.
  - done.
  - split; discriminate.
Qed.

Lemma validateForm_errors s :
  clientSchema (values s) ≠ [] →
  errors (validateForm s).1 =
  foldl (λ acc e, <[Yup.path e := Yup.msg e]> acc) ∅ (clientSchema (values s)).
Proof.
  unfold ClientForm.validateForm. destruct (clientSchema (values s)); simpl; done.
Qed.

Lemma validateForm_fields s :
  title (validateForm s).1 = title s ∧ website (validateForm s).1 = website s ∧
  content (validateForm s).1 = content s ∧ imageFile (validateForm s).1 = imageFile s.
Proof.
  unfold ClientForm.validateForm. by destruct (clientSchema (values s)).
Qed.

(** An invalid form: the toast and nothing else. *)
Lemma client_handleSubmit_invalid p o s :
  clientSchema (values s) ≠ [] →
  handleSubmit p o s =
  ((validateForm s).1, [PreventDefault; ToastError "Please fix the errors in the form."]).
Proof.
  intros H. unfold ClientForm.handleSubmit.
  destruct (validateForm s) as [s1 isValid] eqn:E. simpl.
  assert (isValid = false) as ->; [|done].
  destruct isValid; [|done]. exfalso. apply H.
  apply validateForm_true. by rewrite E.
Qed.

(** A valid form: the requests are the one of [request], if there is one. *)
Lemma client_handleSubmit_valid_requests p o s :
  clientSchema (values s) = [] →
  requests (handleSubmit p o s).2 =
  match request p s with
  | Some (req, _) => [req]
  | None => []
  end.
Proof.
  intros H. unfold ClientForm.handleSubmit.
  destruct (validateForm s) as [s1 isValid] eqn:E.
  assert (isValid = true) as ->.
  { apply validateForm_true in H. by rewrite E in H. }
  simpl. unfold request.
  destruct (bool_decide (mode p = "add")).
  - destruct o, (refreshClientList p); reflexivity.
  - destruct (bool_decide (mode p = "edit")), (initialData p) as [d|];
      destruct o, (refreshClientList p); reflexivity.
Qed.

(** The message kept for a field is the message of one of its failed
    tests; a field without failed test keeps none. *)
Lemma errors_of_field s field (schema : list Yup.ValidationError) :
  clientSchema (values s) ≠ [] →
  (∀ e, e ∈ clientSchema (values s) → Yup.path e = field → e ∈ schema) →
  (∀ e, e ∈ schema → e ∈ clientSchema (values s) ∧ Yup.path e = field) →
  (schema ≠ [] → ∃ m, errors (validateForm s).1 !! field = Some m ∧ (field, m) ∈ schema) ∧
  (schema = [] → errors (validateForm s).1 !! field = None).
Proof.
  intros Hinv Hin Hout. rewrite validateForm_errors by done. split.
  - intros Hne. apply nonempty_elem in Hne as [e He].
    destruct (Hout e He) as [He' Hp].
    destruct (newErrors_present (clientSchema (values s)) field ∅) as [m [Hm Hmem]].
    { by exists e. }
    exists m. split; [done|]. by apply Hin.
  - intros ->. rewrite newErrors_absent; [apply lookup_empty|].
    intros e He Hp. apply (Hin e He) in Hp. by apply elem_of_nil in Hp.
Qed.

(** Each field against [errors_of_field]: the errors of the whole schema
    with the path of a field are the errors of the schema of that field. *)
Ltac other_path H :=
  first [ apply titleSchema_path in H | apply websiteSchema_path in H
        | apply contentSchema_path in H | apply imageSchema_path in H ];
  congruence.

Ltac field_errors path_lemma :=
  apply errors_of_field;
  [ assumption
  | let e := fresh "e" in let He := fresh "He" in let Hp := fresh "Hp" in
    intros e He Hp; apply clientSchema_elem in He; simpl in He;
    destruct He as [He|[He|[He|He]]]; first [exact He | other_path He]
  | let e := fresh "e" in let He := fresh "He" in
    intros e He; split; [apply clientSchema_elem; simpl; tauto | by apply path_lemma in He] ].

Lemma errors_title s :
  clientSchema (values s) ≠ [] →
  (titleSchema (title s) ≠ [] →
   ∃ m, errors (validateForm s).1 !! "title" = Some m ∧ ("title", m) ∈ titleSchema (title s)) ∧
  (titleSchema (title s) = [] → errors (validateForm s).1 !! "title" = None).
Proof. intros H. field_errors titleSchema_path. Qed.

Lemma errors_website s :
  clientSchema (values s) ≠ [] →
  (websiteSchema (website s) ≠ [] →
   ∃ m, errors (validateForm s).1 !! "website" = Some m
        ∧ ("website", m) ∈ websiteSchema (website s)) ∧
  (websiteSchema (website s) = [] → errors (validateForm s).1 !! "website" = None).
Proof. intros H. field_errors websiteSchema_path. Qed.

Lemma errors_content s :
  clientSchema (values s) ≠ [] →
  (contentSchema (content s) ≠ [] →
   ∃ m, errors (validateForm s).1 !! "content" = Some m
        ∧ ("content", m) ∈ contentSchema (content s)) ∧
  (contentSchema (content s) = [] → errors (validateForm s).1 !! "content" = None).
Proof. intros H. field_errors contentSchema_path. Qed.

Lemma errors_image s :
  clientSchema (values s) ≠ [] →
  (imageSchema (imageFile s) ≠ [] →
   ∃ m, errors (validateForm s).1 !! "image" = Some m
        ∧ ("image", m) ∈ imageSchema (imageFile s)) ∧
  (imageSchema (imageFile s) = [] → errors (validateForm s).1 !! "image" = None).
Proof. intros H. field_errors imageSchema_path. Qed.

Lemma violation_invalid s :
  title_violates s ∨ website_violates s ∨ content_violates s ∨ image_violates s ↔
  clientSchema (values s) ≠ [].
Proof.
  rewrite title_violates_iff, website_violates_iff, content_violates_iff,
    image_violates_iff, clientSchema_valid. simpl.
  destruct (decide (titleSchema (title s) = [])),
    (decide (websiteSchema (website s) = [])),
    (decide (contentSchema (content s) = [])),
    (decide (imageSchema (imageFile s) = [])); tauto.
Qed.

(** An absent image never blocks: without an image the form is valid
    exactly when title, website and description are. *)
Lemma absent_image_never_blocks s :
  imageFile s = None →
  ((validateForm s).2 = true ↔
   ¬ title_violates s ∧ ¬ website_violates s ∧ ¬ content_violates s).
Proof.
  intros Hi. rewrite validateForm_true, clientSchema_valid. simpl.
  rewrite Hi, title_violates_iff, website_violates_iff, content_violates_iff.
  destruct (decide (titleSchema (title s) = [])),
    (decide (websiteSchema (website s) = [])),
    (decide (contentSchema (content s) = [])); tauto.
Qed.

(** C10: when a field of the form violates the client schema (title empty
    or over 100 code units; website empty, not matching the URL pattern or
    over 255; description under 10 or over 1000; a selected image of
    another MIME type than the four allowed or of more than 2*1024*1024
    bytes), handleSubmit sends no request, and errors holds, for each field
    in violation, the message of one of its failed tests; when no image
    is selected, image gets no message and the violation lies in another
    field.  And an absent image never blocks: a form without image whose
    title, website and description violate nothing passes validateForm,
    and the request of its mode is sent. *)
Theorem invalid_client_is_not_sent p o s :
  let r := handleSubmit p o s in
  (title_violates s ∨ website_violates s ∨ content_violates s ∨ image_violates s →
   requests r.2 = [] ∧
   (title_violates s →
    ∃ m, errors r.1 !! "title" = Some m ∧ ("title", m) ∈ titleSchema (title s)) ∧
   (website_violates s →
    ∃ m, errors r.1 !! "website" = Some m ∧ ("website", m) ∈ websiteSchema (website s)) ∧
   (content_violates s →
    ∃ m, errors r.1 !! "content" = Some m ∧ ("content", m) ∈ contentSchema (content s)) ∧
   (image_violates s →
    ∃ m, errors r.1 !! "image" = Some m ∧ ("image", m) ∈ imageSchema (imageFile s)) ∧
   (imageFile s = None →
    errors r.1 !! "image" = None ∧
    (title_violates s ∨ website_violates s ∨ content_violates s))) ∧
  (imageFile s = None →
   ¬ title_violates s → ¬ website_violates s → ¬ content_violates s →
   (validateForm s).2 = true ∧
   requests r.2 = match request p s with Some (req, _) => [req] | None => [] end ∧
   (mode p = "add" →
    requests r.2 = [Post "/client/create-client" (formData s) multipart])).
Proof.
  intros r. subst r. split.
  - intros Hv. pose proof Hv as Hinv. apply violation_invalid in Hinv.
    rewrite client_handleSubmit_invalid by done. simpl.
    split; [reflexivity|].
    split; [rewrite title_violates_iff; by apply errors_title|].
    split; [rewrite website_violates_iff; by apply errors_website|].
    split; [rewrite content_violates_iff; by apply errors_content|].
    split; [rewrite image_violates_iff; by apply errors_image|].
    intros Hi. split.
    + apply errors_image; [done|]. by rewrite Hi.
    + destruct Hv as [?|[?|[?|(f & Hf & _)]]]; auto. congruence.
  - intros Hi Ht Hw Hc.
    assert (Hvalid : (validateForm s).2 = true)
      by (apply absent_image_never_blocks; done).
    split; [exact Hvalid|]. apply validateForm_true in Hvalid.
    rewrite client_handleSubmit_valid_requests by exact Hvalid.
    split; [reflexivity|]. intros Ha. unfold request. by rewrite Ha.
Qed.

(** *** The request of a valid form *)

Lemma request_add p s :
  mode p = "add" →
  request p s = Some (Post "/client/create-client" (formData s) multipart,
                      ToastSuccess "Client created successfully!").
Proof. intros H. unfold request. by rewrite H. Qed.

Lemma request_edit p s d :
  mode p = "edit" → initialData p = Some d →
  request p s = Some (Put ("/client/update-client/" +:+ Client.id d) (formData s) multipart,
                      ToastSuccess "Client updated successfully!").
Proof. intros H Hd. unfold request. by rewrite H, Hd. Qed.

(** In edit mode without a record, and in any other mode, nothing is sent. *)
Lemma request_none p s :
  mode p ≠ "add" → (mode p ≠ "edit" ∨ initialData p = None) → request p s = None.
Proof.
  intros Ha He. unfold request. rewrite bool_decide_eq_false_2 by done.
  destruct He as [He| ->].
  - by rewrite bool_decide_eq_false_2.
  - by destruct (bool_decide _).
Qed.

(** C9: a form that passes validateForm sends exactly one request: in add
    mode a POST to /client/create-client, in edit mode, d being the record
    that is edited, a PUT to /client/update-client/ followed by the id of
    d.  Both carry the multipart body formData: name, website and
    description, with the title, website and content of the form, and a
    logo exactly when an image file was selected, that file then. *)
Theorem valid_client_is_sent_once p o s :
  (validateForm s).2 = true →
  let r := handleSubmit p o s in
  (mode p = "add" →
   requests r.2 = [Post "/client/create-client" (formData s) multipart]) ∧
  (∀ d, mode p = "edit" → initialData p = Some d →
        requests r.2 =
        [Put ("/client/update-client/" +:+ Client.id d) (formData s) multipart]) ∧
  (formData s).*1 =
    ["name"; "website"; "description"] ++
    match imageFile s with Some _ => ["logo"] | None => [] end ∧
  ("name", Text (title s)) ∈ formData s ∧
  ("website", Text (website s)) ∈ formData s ∧
  ("description", Text (content s)) ∈ formData s ∧
  (∀ v, ("logo", v) ∈ formData s ↔ ∃ f, imageFile s = Some f ∧ v = Blob f).
Proof.
  intros Hv r. subst r. apply validateForm_true in Hv.
  rewrite client_handleSubmit_valid_requests by done.
  split; [intros Ha; by rewrite request_add|].
  split; [intros d He Hd; by rewrite (request_edit _ _ d)|].
  unfold formData. split; [by destruct (imageFile s)|].
  rewrite !elem_of_app, !elem_of_cons.
  split; [tauto|]. split; [tauto|]. split; [tauto|].
  intros v. rewrite elem_of_app, !elem_of_cons. split.
  - intros [[H|[H|[H|H]]]|H]; try discriminate; try by apply elem_of_nil in H.
    destruct (imageFile s) as [f|]; [|by apply elem_of_nil in H].
    apply list_elem_of_singleton in H as [= ->]. by exists f.
  - intros (f & -> & ->). right. by left.
Qed.

End ClientFormProperties.


(** ** Concrete runs, with the library patterns *)

Section Runs.
Import ForgotPassword.

Example rEmail_samples :
  Patterns.rEmail "user@example.com" = true ∧
  Patterns.rEmail "user.example.com" = false ∧
  Patterns.rEmail "" = false.
Proof. vm_compute. auto. Qed.

Example rUrl_samples :
  Patterns.rUrl "https://acme.example.com" = true ∧
  Patterns.rUrl "HTTP://1.2.3.4:80/a/b?x=1#f" = true ∧
  Patterns.rUrl "acme" = false.
Proof. vm_compute. auto. Qed.

(** The whole wizard once through: three requests, then the navigation,
    which ends the run; the cells are left in step 1 with the email still
    stored. *)
Example full_reset_run :
  play Patterns.rEmail
    [Submit Samples.user; Settle 0 (Resolved true "OTP sent");
     Submit Samples.with_otp; Settle 0 (Resolved true "OTP verified");
     Submit Samples.with_passwords; Settle 0 (Resolved true "Password changed")]
    mount =
  Some (mkPage (mkState 1 "Password changed" true false "user@example.com") ∅
          Samples.with_passwords [],
        [Post "/auth/forgot-password" [("email", "user@example.com")];
         Post "/auth/verify-otp" [("email", "user@example.com"); ("otp", "123456")];
         Post "/auth/reset-password"
           [("email", "user@example.com"); ("newPassword", "secret1");
            ("confirmNewPassword", "secret1")];
         Navigate "/login"]).
Proof. vm_compute. reflexivity. Qed.

(** While a request is out the submit button is disabled. *)
Example no_submit_while_loading :
  dispatch Patterns.rEmail (Submit Samples.other) Samples.page_resubmitted = None.
Proof. reflexivity. Qed.

Lemma reachable_back_at_email : reachable Patterns.rEmail Samples.page_back_at_email.
Proof.
  apply (play_reachable Patterns.rEmail Samples.back_to_email mount _
           [Post "/auth/forgot-password" [("email", "user@example.com")]]).
  - apply reachable_mount.
  - vm_compute. reflexivity.
  - reflexivity.
Qed.

Lemma reachable_resubmitted : reachable Patterns.rEmail Samples.page_resubmitted.
Proof.
  apply (reachable_step Patterns.rEmail Samples.page_back_at_email (Submit Samples.other) _
           [Post "/auth/forgot-password" [("email", "other@example.com")]]).
  - apply reachable_back_at_email.
  - vm_compute. reflexivity.
  - reflexivity.
Qed.


Lemma pristine_email_pending : pristine Patterns.rEmail Samples.page_email_pending.
Proof.
  apply (pristine_step Patterns.rEmail mount (Submit Samples.user) _
           [Post "/auth/forgot-password" [("email", "user@example.com")]]).
  - apply pristine_mount.
  - vm_compute. reflexivity.
  - discriminate.
Qed.


(** C3, on the code: the email user@example.com is submitted and passes
    validation; while the request is out the email input is changed to
    other@example.com; request-otp answers success = true.  The wizard
    moves to step Otp, the request carried user@example.com, and the email
    that is stored is other@example.com: [setEmail(data.email)] runs
    after the [await] and reads the values object as it is then. *)
Theorem submitEmail_stores_the_edited_email :
  emailSchema Patterns.rEmail Samples.user = [] ∧
  play Patterns.rEmail Samples.edit_while_pending mount =
  Some (mkPage (mkState 2 "OTP sent" true false "other@example.com") ∅ Samples.other [],
        [Post "/auth/forgot-password" [("email", "user@example.com")]]).
Proof. split; vm_compute; reflexivity. Qed.

Lemma submitEmail_invalid_sends_nothing_witness :
  step initial = 1%Z ∧
  Patterns.rEmail "user.example.com" = false ∧
  onSubmit Patterns.rEmail Samples.not_an_email Samples.not_an_email
    (Resolved true "OTP sent") initial
  = (initial, []).
Proof.
  assert (H1 : step initial = 1%Z) by reflexivity.
  assert (H2 : Patterns.rEmail (Data.email Samples.not_an_email) = false)
    by (vm_compute; reflexivity).
  split; [exact H1|]. split; [exact H2|].
  exact (proj1 (submitEmail_invalid_sends_nothing Patterns.rEmail Samples.not_an_email
                  Samples.not_an_email (Resolved true "OTP sent") initial H1 H2)).
Defined.

(** verify-otp answers success = false with the message Invalid OTP: the
    wizard stays in step Otp and shows that message. *)
Lemma remote_rejection_keeps_step_witness :
  form Samples.at_otp = Some HandleOtpSubmit ∧
  resolver Patterns.rEmail Samples.at_otp Samples.with_otp = [] ∧
  let r := onSubmit Patterns.rEmail Samples.with_otp Samples.with_otp
             (Resolved false "Invalid OTP") Samples.at_otp in
  step r.1 = 2%Z ∧
  message r.1 = "Invalid OTP" ∧
  success r.1 = false ∧
  ("Invalid OTP" ≠ "" → banner r.1 = Some ("Invalid OTP", false)).
Proof.
  assert (H1 : form Samples.at_otp = Some HandleOtpSubmit) by reflexivity.
  assert (H2 : resolver Patterns.rEmail Samples.at_otp Samples.with_otp = [])
    by reflexivity.
  split; [exact H1|]. split; [exact H2|].
  exact (remote_rejection_keeps_step Patterns.rEmail HandleOtpSubmit Samples.with_otp
           Samples.with_otp "Invalid OTP" Samples.at_otp H1 H2).
Defined.

Lemma transport_error_keeps_step_witness :
  form Samples.at_reset = Some HandlePasswordReset ∧
  resolver Patterns.rEmail Samples.at_reset Samples.with_passwords = [] ∧
  let r := onSubmit Patterns.rEmail Samples.with_passwords Samples.with_passwords
             (Rejected "Network Error") Samples.at_reset in
  step r.1 = 3%Z ∧
  success r.1 = false ∧
  isLoading r.1 = false ∧
  message r.1 = "Error resetting password. Please try again." ∧
  r.2 = [(send HandlePasswordReset Samples.with_passwords Samples.at_reset).2] ∧
  requests r.2 = [(send HandlePasswordReset Samples.with_passwords Samples.at_reset).2].
Proof.
  assert (H1 : form Samples.at_reset = Some HandlePasswordReset) by reflexivity.
  assert (H2 : resolver Patterns.rEmail Samples.at_reset Samples.with_passwords = [])
    by reflexivity.
  split; [exact H1|]. split; [exact H2|].
  exact (transport_error_keeps_step Patterns.rEmail HandlePasswordReset
           Samples.with_passwords Samples.with_passwords "Network Error"
           Samples.at_reset H1 H2).
Defined.

Lemma submitReset_requires_matching_pair_witness :
  step Samples.at_reset = 3%Z ∧
  Data.confirmNewPassword Samples.with_mismatch ≠ Data.newPassword Samples.with_mismatch ∧
  onSubmit Patterns.rEmail Samples.with_mismatch Samples.with_mismatch
    (Resolved true "Password changed") Samples.at_reset = (Samples.at_reset, []).
Proof.
  assert (H1 : step Samples.at_reset = 3%Z) by reflexivity.
  assert (H2 : Data.confirmNewPassword Samples.with_mismatch
               ≠ Data.newPassword Samples.with_mismatch) by discriminate.
  split; [exact H1|]. split; [exact H2|].
  exact (proj2 (submitReset_requires_matching_pair Patterns.rEmail Samples.with_mismatch
                  Samples.with_mismatch (Resolved true "Password changed")
                  Samples.at_reset H1) H2).
Defined.

Lemma submitReset_navigates_once_on_success_witness :
  step Samples.at_reset = 3%Z ∧
  passwordSchema Samples.with_passwords = [] ∧
  let r := onSubmit Patterns.rEmail Samples.with_passwords Samples.with_passwords
             (Resolved true "Password changed") Samples.at_reset in
  step r.1 = 1%Z ∧ navigations r.2 = [Navigate "/login"].
Proof.
  assert (H1 : step Samples.at_reset = 3%Z) by reflexivity.
  assert (H2 : passwordSchema Samples.with_passwords = []) by reflexivity.
  split; [exact H1|]. split; [exact H2|].
  exact (proj1 (submitReset_navigates_once_on_success Patterns.rEmail
                  Samples.with_passwords Samples.with_passwords
                  (Resolved true "Password changed")
                  Samples.at_reset H1) "Password changed" H2 eq_refl).
Defined.

End Runs.

Section ClientRuns.
Import ClientForm.

Lemma valid_client_is_sent_once_witness :
  (validateForm Patterns.rUrl Samples.acme).2 = true ∧
  requests (handleSubmit Patterns.rUrl Samples.adding Resolved Samples.acme).2 =
  [Post "/client/create-client"
     [("name", Text "Acme"); ("website", Text "https://acme.example.com");
      ("description", Text "Acme builds anvils."); ("logo", Blob Samples.logo_png)]
     [("Content-Type", "multipart/form-data")]] ∧
  requests (handleSubmit Patterns.rUrl Samples.editing Resolved Samples.acme_no_logo).2 =
  [Put "/client/update-client/42"
     [("name", Text "Acme"); ("website", Text "https://acme.example.com");
      ("description", Text "Acme builds anvils.")]
     [("Content-Type", "multipart/form-data")]].
Proof.
  assert (H1 : (validateForm Patterns.rUrl Samples.acme).2 = true)
    by (vm_compute; reflexivity).
  assert (H2 : (validateForm Patterns.rUrl Samples.acme_no_logo).2 = true)
    by (vm_compute; reflexivity).
  split; [exact H1|]. split.
  - exact (proj1 (valid_client_is_sent_once Patterns.rUrl Samples.adding Resolved
                    Samples.acme H1) eq_refl).
  - exact (proj1 (proj2 (valid_client_is_sent_once Patterns.rUrl Samples.editing Resolved
                           Samples.acme_no_logo H2)) Samples.acme_record eq_refl eq_refl).
Defined.

Lemma invalid_client_is_not_sent_witness :
  title_violates Samples.untitled ∧
  requests (handleSubmit Patterns.rUrl Samples.adding Resolved Samples.untitled).2 = [] ∧
  imageFile Samples.acme_no_logo = None ∧
  (validateForm Patterns.rUrl Samples.acme_no_logo).2 = true ∧
  requests (handleSubmit Patterns.rUrl Samples.adding Resolved Samples.acme_no_logo).2 =
  [Post "/client/create-client"
     [("name", Text "Acme"); ("website", Text "https://acme.example.com");
      ("description", Text "Acme builds anvils.")]
     [("Content-Type", "multipart/form-data")]].
Proof.
  assert (H1 : title_violates Samples.untitled) by (left; reflexivity).
  assert (Ht : ¬ title_violates Samples.acme_no_logo)
    by (intros [H|H]; [discriminate | vm_compute in H; lia]).
  assert (Hw : ¬ website_violates Patterns.rUrl Samples.acme_no_logo)
    by (intros [H|[H|H]]; [discriminate | vm_compute in H; discriminate
                           | vm_compute in H; lia]).
  assert (Hc : ¬ content_violates Samples.acme_no_logo)
    by (intros [H|H]; vm_compute in H; lia).
  split; [exact H1|].
  split.
  { exact (proj1 (proj1 (invalid_client_is_not_sent Patterns.rUrl Samples.adding
                           Resolved Samples.untitled) (or_introl H1))). }
  split; [reflexivity|].
  pose proof (proj2 (invalid_client_is_not_sent Patterns.rUrl Samples.adding Resolved
                       Samples.acme_no_logo) eq_refl Ht Hw Hc) as (Ha & _ & Hb).
  exact (conj Ha (Hb eq_refl)).
Defined.

(** Edit mode without a record to edit: a valid form sends nothing. *)
Example edit_without_record :
  requests (handleSubmit Patterns.rUrl (mkProps "edit" None true) Resolved Samples.acme).2
  = [].
Proof. vm_compute. reflexivity. Qed.

(** What [errors] holds after the untitled form was submitted. *)
Example untitled_errors :
  errors (handleSubmit Patterns.rUrl Samples.adding Resolved Samples.untitled).1 =
  {[ "title" := "Client name is required";
     "website" := "Please enter a valid URL (e.g., https://example.com)";
     "content" := "Description must be at least 10 characters";
     "image" := "Only JPG, PNG, GIF and WEBP images are allowed" ]}.
Proof. vm_compute. reflexivity. Qed.

End ClientRuns.


(** ** More on the wizard: the page as a whole *)

Section WizardPage.
Import ForgotPassword.
Variable email_pattern : string → bool.

Abbreviation emailSchema := (emailSchema email_pattern).
Abbreviation resolver := (resolver email_pattern).
Abbreviation onSubmit := (onSubmit email_pattern).
Abbreviation dispatch := (dispatch email_pattern).
Abbreviation reachable := (reachable email_pattern).
Abbreviation play := (play email_pattern).

(** X1: an event changes the step in two ways only: Back, from 2 to 1, and
    the answer success = true to a waiting handler, which moves to the step
    after that handler (2 after the email, 3 after the OTP, 1 after the
    reset).  A submission by itself, an answer with success = false and an
    exception leave the step alone. *)
Theorem step_changes_only_on_success ev p p' effs :
  dispatch ev p = Some (p', effs) →
  step (ui p') ≠ step (ui p) →
  (ev = Back ∧ step (ui p) = 2%Z ∧ step (ui p') = 1%Z) ∨
  ∃ k m h data,
    ev = Settle k (Resolved true m) ∧
    inflight p !! k = Some (h, data) ∧
    step (ui p') =
      match h with
      | HandleEmailSubmit => 2%Z
      | HandleOtpSubmit => 3%Z
      | HandlePasswordReset => 1%Z
      end.
Proof.
  destruct ev as [values|i v| |k o]; simpl.
  - destruct (form (ui p)) as [h|]; [|discriminate].
    destruct (isLoading (ui p)); [discriminate|].
    destruct (resolver (ui p) values).
    + pose proof (send_step h values (ui p)) as Hs.
      destruct (send h values (ui p)) as [s1 req]. intros [= <- <-]. simpl in *. congruence.
    + intros [= <- <-]. done.
  - destruct (rendered i (ui p)); [|discriminate]. intros [= <- <-]. done.
  - destruct (Z.eqb_spec (step (ui p)) 2); [|discriminate].
    intros [= <- <-] _. by left.
  - destruct (inflight p !! k) as [[h data]|] eqn:Hk; [|discriminate].
    destruct h, o as [[] m|e]; simpl; intros [= <- <-]; simpl; try done;
      intros _; right; by eexists k, m, _, data.
Qed.

(** X2: on every page that can be reached the loading flag is set exactly
    while a handler waits for its answer, at most one handler waits, and
    while the flag is set no form can be submitted. *)
Theorem one_request_in_flight p :
  reachable p →
  (isLoading (ui p) = true ↔ inflight p ≠ []) ∧
  (length (inflight p) ≤ 1)%nat ∧
  (isLoading (ui p) = true → ∀ values, dispatch (Submit values) p = None).
Proof.
  intros Hp.
  assert (Hinv : (isLoading (ui p) = false ∧ inflight p = []) ∨
                 (isLoading (ui p) = true ∧ ∃ c, inflight p = [c])).
  { induction Hp as [|p ev p' effs _ IH Hd _]; [by left|].
    destruct ev as [values|i v| |k o]; simpl in Hd.
    - destruct (form (ui p)) as [h|]; [|discriminate].
      destruct (isLoading (ui p)) eqn:Hl; [discriminate|].
      destruct IH as [[_ Hin]|[? _]]; [|discriminate].
      destruct (resolver (ui p) values).
      + rewrite Hin in Hd. destruct h; injection Hd as <- <-; right; simpl; eauto.
      + injection Hd as <- <-. left. simpl. by split.
    - destruct (rendered i (ui p)); [|discriminate]. by injection Hd as <- <-.
    - destruct (step (ui p) =? 2)%Z; [|discriminate]. by injection Hd as <- <-.
    - destruct IH as [[_ Hin]|[_ [c Hin]]]; rewrite Hin in Hd.
      + by rewrite lookup_nil in Hd.
      + destruct k as [|k]; simpl in Hd; [|discriminate].
        destruct c as [h data].
        destruct h, o as [[] m|e]; injection Hd as <- <-; left; done. }
  split; [|split].
  - destruct Hinv as [[Hl Hin]|[Hl [c Hin]]]; rewrite Hl, Hin; split; done.
  - destruct Hinv as [[_ Hin]|[_ [c Hin]]]; rewrite Hin; simpl; lia.
  - intros Hl values. simpl. rewrite Hl. by destruct (form (ui p)).
Qed.

(** X4: an OTP of six code units, answered by verify-otp with success =
    true, moves the wizard from step Otp (2) to step Reset (3); the stored
    email is kept and was sent with the OTP, and the banner shows the
    answer in the success colours. *)
Theorem submitOtp_success_advances values values' m s :
  step s = 2%Z → String.length (Data.otp values) = 6 →
  let r := onSubmit values values' (Resolved true m) s in
  step r.1 = 3%Z ∧
  email r.1 = email s ∧
  r.2 = [Post "/auth/verify-otp" [("email", email s); ("otp", Data.otp values)]] ∧
  (m ≠ "" → banner r.1 = Some (m, true)).
Proof.
  intros Hs Hlen r. subst r.
  rewrite (onSubmit_form email_pattern HandleOtpSubmit) by by apply form_step2.
  rewrite handleSubmit_valid by (rewrite resolver_step2 by done; by apply otpSchema_valid).
  repeat split. intros Hm. unfold banner. simpl. by rewrite bool_decide_eq_false_2.
Qed.

(** X5: Back does not cancel a verification that is under way.  When Back
    is pressed between the submission of the OTP and the answer, the
    wizard shows the email form, and the answer success = true then moves
    it from step 1 straight to step 3. *)
Theorem back_does_not_cancel_verification values m p :
  step (ui p) = 2%Z → isLoading (ui p) = false →
  String.length (Data.otp values) = 6 →
  ∃ p1 p2 p3 req,
    dispatch (Submit values) p = Some (p1, [req]) ∧
    dispatch Back p1 = Some (p2, []) ∧ step (ui p2) = 1%Z ∧
    dispatch (Settle (length (inflight p)) (Resolved true m)) p2 = Some (p3, []) ∧
    step (ui p3) = 3%Z ∧ email (ui p3) = email (ui p).
Proof.
  intros Hs Hl Hlen. simpl.
  rewrite form_step2, Hl, resolver_step2 by done.
  assert (Hv : otpSchema values = []) by by apply otpSchema_valid.
  rewrite Hv. simpl.
  eexists _, _, _, _. split; [reflexivity|]. simpl. rewrite Hs. simpl.
  split; [reflexivity|]. split; [reflexivity|]. simpl.
  rewrite lookup_app_r, Nat.sub_diag by done. simpl.
  split; [reflexivity|]. done.
Qed.

(** *** A submission that validation rejects *)

Lemma toFieldErrors_lookup (errs : list Yup.ValidationError) f m :
  toFieldErrors errs !! f = Some m → (f, m) ∈ errs.
Proof.
  induction errs as [|[f' m'] errs IH]; simpl.
  - by rewrite lookup_empty.
  - unfold Yup.path, Yup.msg. simpl.
    destruct (decide (f' = f)) as [->|Hne].
    + rewrite lookup_insert_eq. intros [= ->]. by left.
    + rewrite lookup_insert_ne by done. intros H. right. by apply IH.
Qed.

Lemma toFieldErrors_is_Some (errs : list Yup.ValidationError) f m :
  (f, m) ∈ errs → is_Some (toFieldErrors errs !! f).
Proof.
  induction errs as [|[f' m'] errs IH]; simpl.
  - intros H. by apply elem_of_nil in H.
  - unfold Yup.path, Yup.msg. simpl.
    destruct (decide (f' = f)) as [->|Hne].
    + intros _. rewrite lookup_insert_eq. by eexists.
    + rewrite lookup_insert_ne by done. intros H.
      apply elem_of_cons in H as [[= ? ?]|H]; [congruence | by apply IH].
Qed.

(** X6: a submission that the resolver rejects changes nothing but the
    field errors: no request, no handler waiting, the state cells as they
    were; and the fields that get a message are exactly those with a
    failed test, each with the message of one of its failed tests. *)
Theorem invalid_submit_records_errors h values p :
  form (ui p) = Some h → isLoading (ui p) = false →
  resolver (ui p) values ≠ [] →
  ∃ p',
    dispatch (Submit values) p = Some (p', []) ∧
    ui p' = ui p ∧ inflight p' = inflight p ∧
    (∀ f, is_Some (errors p' !! f) ↔ ∃ m, (f, m) ∈ resolver (ui p) values) ∧
    (∀ f m, errors p' !! f = Some m → (f, m) ∈ resolver (ui p) values).
Proof.
  intros Hf Hl Hv. simpl. rewrite Hf, Hl.
  destruct (resolver (ui p) values) as [|e errs] eqn:E; [done|].
  eexists. split; [reflexivity|]. simpl. split; [done|]. split; [done|]. split.
  - intros f. split.
    + intros [m Hm]. exists m. by apply (toFieldErrors_lookup (e :: errs)).
    + intros [m Hm]. by apply (toFieldErrors_is_Some (e :: errs) f m).
  - intros f m. apply (toFieldErrors_lookup (e :: errs)).
Qed.

(** X7: whatever the answer to a request is, once it has arrived the
    loading flag is off and no handler waits; and unless the answer made
    the wizard navigate away (a reset that succeeded), the form of the
    current step can be submitted again. *)
Theorem retry_after_any_answer k o p p' effs :
  reachable p →
  dispatch (Settle k o) p = Some (p', effs) →
  isLoading (ui p') = false ∧ inflight p' = [] ∧
  (navigations effs = [] → ∀ values, is_Some (dispatch (Submit values) p')).
Proof.
  intros Hp Hd.
  pose proof (dispatch_one_inflight email_pattern _ _ _ _
                (reachable_one_inflight email_pattern p Hp) Hd) as (Hl' & _ & Hs').
  assert (Hload : isLoading (ui p') = false).
  { simpl in Hd. destruct (inflight p !! k) as [[h data]|]; [|discriminate].
    destruct h, o as [[] m|e]; by injection Hd as <- <-. }
  split; [done|]. split; [by apply Hl'|].
  intros _ values. simpl. rewrite Hload.
  assert (Hf : ∃ h, form (ui p') = Some h).
  { destruct Hs' as [H|[H|H]]; unfold form; rewrite H; simpl; eauto. }
  destruct Hf as [h ->]. destruct (resolver (ui p') values); [|by eexists].
  destruct (send h values (ui p')). by eexists.
Qed.

End WizardPage.

(** ** More on the client form: the other handlers *)

Section ClientFormHandlers.
Import ClientForm.
Variable url_pattern : string → bool.
Variable createObjectURL : File.t → string.

Abbreviation websiteSchema := (websiteSchema url_pattern).
Abbreviation clientSchema := (clientSchema url_pattern).
Abbreviation validateForm := (validateForm url_pattern).
Abbreviation handleSubmit := (handleSubmit url_pattern).
Abbreviation website_violates := (website_violates url_pattern).
Abbreviation reach := (reach url_pattern).
Abbreviation validateField := (validateField url_pattern).
Abbreviation handleBlur := (handleBlur url_pattern).
Abbreviation onChangeTitle := (onChangeTitle url_pattern).
Abbreviation onChangeWebsite := (onChangeWebsite url_pattern).
Abbreviation onChangeContent := (onChangeContent url_pattern).
Abbreviation handleImageChange := (handleImageChange url_pattern createObjectURL).

(** *** The messages of the schema *)

Lemma test_msg e field message b : e ∈ Yup.test field message b → Yup.msg e = message.
Proof.
  destruct b; simpl; [intros H; by apply elem_of_nil in H|].
  intros H. apply list_elem_of_singleton in H. by subst e.
Qed.

Lemma reach_msg_nonempty field v e : e ∈ reach field v → Yup.msg e ≠ "".
Proof.
  destruct field; simpl;
    unfold titleSchema, ClientForm.websiteSchema, contentSchema, imageSchema;
    rewrite ?elem_of_app; intros H.
  - destruct H as [H|H]; apply test_msg in H; by rewrite H.
  - destruct H as [H|[H|H]]; apply test_msg in H; by rewrite H.
  - destruct H as [H|[H|H]]; apply test_msg in H; by rewrite H.
  - destruct H as [H|H]; apply test_msg in H; by rewrite H.
Qed.

Lemma reach_path field v e : e ∈ reach field v → Yup.path e = fieldName field.
Proof.
  destruct field; simpl; intros H.
  - by apply titleSchema_path in H.
  - by apply websiteSchema_path in H.
  - by apply contentSchema_path in H.
  - by apply imageSchema_path in H.
Qed.

(** *** validateField *)

(** What [validateField] leaves in [errors] for its field: the message of
    the first failed test, or the empty text. *)
Lemma validateField_errors field value c s :
  errors (validateField field value c s).1 =
  <[fieldName field :=
      match reach field (fieldValue field value c) with
      | [] => ""
      | error :: _ => Yup.msg error
      end]> (errors s).
Proof.
  unfold ClientForm.validateField.
  by destruct (reach field (fieldValue field value c)).
Qed.

Lemma validateField_cells field value c s :
  title (validateField field value c s).1 = title s ∧
  website (validateField field value c s).1 = website s ∧
  content (validateField field value c s).1 = content s ∧
  imageFile (validateField field value c s).1 = imageFile s ∧
  imagePreview (validateField field value c s).1 = imagePreview s ∧
  touched (validateField field value c s).1 = touched s.
Proof.
  unfold ClientForm.validateField.
  by destruct (reach field (fieldValue field value c)).
Qed.

(** After [validateField] on a touched field the message under the input
    is the first failed test of the value that was validated. *)
Lemma shown_after_validateField field value c s :
  touched s !! fieldName field = Some true →
  shown field (validateField field value c s).1 =
  head (Yup.msg <$> reach field (fieldValue field value c)).
Proof.
  intros Ht. unfold shown, isTouched.
  destruct (validateField_cells field value c s) as (_ & _ & _ & _ & _ & ->).
  rewrite validateField_errors, lookup_insert_eq, Ht.
  destruct (reach field (fieldValue field value c)) as [|e l] eqn:E; simpl.
  - reflexivity.
  - rewrite bool_decide_eq_false_2; [done|].
    apply (reach_msg_nonempty field (fieldValue field value c)). rewrite E. by left.
Qed.

(** X14: typing into a field that was touched validates the value the
    field had before the keystroke: the cell gets the new text, and the
    message under the input is the first failed test of the old one. *)
Theorem change_validates_the_previous_value v s :
  (isTouched Title s = true →
   title (onChangeTitle v s) = v ∧
   shown Title (onChangeTitle v s) = head (Yup.msg <$> titleSchema (title s))) ∧
  (isTouched Website s = true →
   website (onChangeWebsite v s) = v ∧
   shown Website (onChangeWebsite v s) = head (Yup.msg <$> websiteSchema (website s))) ∧
  (isTouched Content s = true →
   content (onChangeContent v s) = v ∧
   shown Content (onChangeContent v s) = head (Yup.msg <$> contentSchema (content s))).
Proof.
  unfold ClientForm.onChangeTitle, ClientForm.onChangeWebsite, ClientForm.onChangeContent.
  split; [|split]; intros Ht; rewrite Ht; apply bool_decide_eq_true in Ht;
    (split; [|by rewrite shown_after_validateField by exact Ht]).
  - by destruct (validateField_cells Title None s (setTitle v s)) as (-> & _).
  - by destruct (validateField_cells Website None s (setWebsite v s)) as (_ & -> & _).
  - by destruct (validateField_cells Content None s (setContent v s)) as (_ & _ & -> & _).
Qed.

(** X15: leaving a field marks it touched and validates its current
    value: the message under the input is the first failed test of that
    value, none when the value is valid; the inputs are not changed. *)
Theorem blur_validates_the_current_value field s :
  let s' := handleBlur field s in
  isTouched field s' = true ∧
  shown field s' = head (Yup.msg <$> reach field (fieldValue field None s)) ∧
  (shown field s' = None ↔ reach field (fieldValue field None s) = []) ∧
  title s' = title s ∧ website s' = website s ∧ content s' = content s ∧
  imageFile s' = imageFile s.
Proof.
  intros s'. subst s'. unfold ClientForm.handleBlur.
  set (s1 := setTouched (<[fieldName field := true]> (touched s)) s).
  assert (Ht : touched s1 !! fieldName field = Some true) by apply lookup_insert_eq.
  pose proof (validateField_cells field None s s1) as (Ha & Hb & Hc & Hd & _ & He).
  rewrite Ha, Hb, Hc, Hd, shown_after_validateField by done.
  split; [unfold isTouched; rewrite He; by apply bool_decide_eq_true|].
  split; [done|]. split; [|done].
  by destruct (reach field (fieldValue field None s)).
Qed.

(** *** validateForm and what is shown *)

Lemma validateForm_touched s field :
  isTouched field (validateForm s).1 = true.
Proof.
  unfold isTouched, ClientForm.validateForm. apply bool_decide_eq_true.
  destruct (clientSchema (values s)); destruct field; reflexivity.
Qed.

Lemma validateForm_lookup s field :
  clientSchema (values s) ≠ [] →
  (reach field (fieldValue field None s) ≠ [] →
   ∃ m, errors (validateForm s).1 !! fieldName field = Some m ∧
        (fieldName field, m) ∈ reach field (fieldValue field None s)) ∧
  (reach field (fieldValue field None s) = [] →
   errors (validateForm s).1 !! fieldName field = None).
Proof.
  intros H. destruct field; simpl.
  - by apply errors_title.
  - by apply errors_website.
  - by apply errors_content.
  - by apply errors_image.
Qed.

(** X16: after [validateForm] every field is touched, and a message is
    shown under exactly those inputs whose value fails a test of its
    field; the inputs are as they were. *)
Theorem validateForm_shows_exactly_the_violations s field :
  (shown field (validateForm s).1 = None ↔ reach field (fieldValue field None s) = []) ∧
  isTouched field (validateForm s).1 = true ∧
  title (validateForm s).1 = title s ∧ website (validateForm s).1 = website s ∧
  content (validateForm s).1 = content s ∧ imageFile (validateForm s).1 = imageFile s.
Proof.
  split; [|split; [apply validateForm_touched | apply validateForm_fields]].
  unfold shown. rewrite validateForm_touched.
  destruct (decide (clientSchema (values s) = [])) as [Hv|Hv].
  - assert (He : errors (validateForm s).1 = ∅).
    { unfold ClientForm.validateForm. by rewrite Hv. }
    rewrite He, lookup_empty. split; [intros _|done].
    apply clientSchema_valid in Hv as (Ht & Hw & Hc & Hi). by destruct field.
  - destruct (validateForm_lookup s field Hv) as [Hsome Hnone].
    destruct (decide (reach field (fieldValue field None s) = [])) as [Hr|Hr].
    + by rewrite (Hnone Hr).
    + destruct (Hsome Hr) as (m & -> & Hin).
      apply reach_msg_nonempty in Hin. simpl in Hin.
      rewrite bool_decide_eq_false_2 by done. split; [discriminate | done].
Qed.

(** *** The image *)

(** X12: choosing a file stores it with its preview, marks the image
    touched and validates that very file: a type outside the four allowed
    shows the format message, an allowed type of more than 2*1024*1024
    bytes the size message, anything else no message.  The text inputs and
    the file input element are left alone. *)
Theorem image_change_validates_the_new_file f s :
  let r := handleImageChange (Some f) s in
  imageFile r.1 = Some f ∧
  imagePreview r.1 = Some (createObjectURL f) ∧
  title r.1 = title s ∧ website r.1 = website s ∧ content r.1 = content s ∧
  r.2 = false ∧
  shown Image r.1 =
    if bool_decide (File.type f ∈ allowedTypes)
    then if (File.size f <=? 2 * 1024 * 1024)%N then None
         else Some "Image size cannot exceed 2MB"
    else Some "Only JPG, PNG, GIF and WEBP images are allowed".
Proof.
  intros r. subst r. unfold ClientForm.handleImageChange. simpl.
  set (s1 := setImagePreview _ _).
  set (s2 := setTouched _ s1).
  pose proof (validateField_cells Image (Some f) s s2) as (Ha & Hb & Hc & Hd & He & _).
  rewrite Ha, Hb, Hc, Hd, He.
  repeat (split; [reflexivity|]).
  rewrite shown_after_validateField by apply lookup_insert_eq.
  simpl. unfold imageSchema, fileFormat, fileSize.
  by destruct (bool_decide (File.type f ∈ allowedTypes)),
    (File.size f <=? 2 * 1024 * 1024)%N.
Qed.

(** X13: an emptied file input (and the Remove button) takes the image
    away with its preview and its message and empties the input element;
    from then on the form is valid exactly when title, website and
    description are, whatever file had been chosen. *)
Theorem removing_the_image_unblocks s :
  let r := handleImageChange None s in
  r = handleRemoveImage s ∧
  imageFile r.1 = None ∧ imagePreview r.1 = None ∧
  shown Image r.1 = None ∧ r.2 = true ∧
  ((validateForm r.1).2 = true ↔
   ¬ title_violates s ∧ ¬ website_violates s ∧ ¬ content_violates s).
Proof.
  intros r. subst r. simpl.
  split; [reflexivity|]. split; [reflexivity|]. split; [reflexivity|].
  split.
  - unfold shown. simpl. by rewrite lookup_insert_eq.
  - split; [reflexivity|]. by rewrite absent_image_never_blocks.
Qed.

(** *** What handleSubmit does after the request *)

Lemma validateForm_valid_state s :
  (validateForm s).2 = true →
  (validateForm s).1 =
  setErrors ∅ (setTouched (foldl (λ acc field, <[field := true]> acc) ∅ allFields) s).
Proof.
  intros H. apply validateForm_true in H.
  unfold ClientForm.validateForm. by rewrite H.
Qed.

Lemma handleSubmit_unfold p o s :
  (validateForm s).2 = true →
  handleSubmit p o s =
  let s1 := (validateForm s).1 in
  let done_ :=
    (if refreshClientList p then [RefreshClientList] else []) ++ [SetIsDrawerOpen false] in
  match request p s with
  | Some (req, toast) =>
      match o with
      | Resolved => (resetForm s1, [PreventDefault; req; toast] ++ done_)
      | Rejected error =>
          (s1, [PreventDefault; req; ConsoleError "Error handling client:" error;
                ToastError "Failed to save client. Please try again."])
      end
  | None => (resetForm s1, [PreventDefault] ++ done_)
  end.
Proof.
  intros H. unfold ClientForm.handleSubmit.
  destruct (validateForm s) as [s1 isValid]. simpl in *. by rewrite H.
Qed.

Lemma empty_form_is_invalid s p o :
  title s = "" → requests (handleSubmit p o s).2 = [].
Proof.
  intros Ht. rewrite client_handleSubmit_invalid; [done|].
  apply violation_invalid. left. by left.
Qed.

(** X9: when the request of a valid form fails, the inputs stay as the
    user left them, the list is not refreshed and the drawer stays open;
    submitting again sends the same request. *)
Theorem failed_save_keeps_the_form p error s req toast :
  (validateForm s).2 = true → request p s = Some (req, toast) →
  let r := handleSubmit p (Rejected error) s in
  title r.1 = title s ∧ website r.1 = website s ∧ content r.1 = content s ∧
  imageFile r.1 = imageFile s ∧
  r.2 = [PreventDefault; req; ConsoleError "Error handling client:" error;
         ToastError "Failed to save client. Please try again."] ∧
  ∀ o, requests (handleSubmit p o r.1).2 = [req].
Proof.
  intros Hv Hr r. subst r. rewrite handleSubmit_unfold by done. simpl. rewrite Hr.
  simpl. rewrite validateForm_valid_state by done. simpl.
  repeat (split; [reflexivity|]).
  intros o. apply validateForm_true in Hv.
  rewrite client_handleSubmit_valid_requests by exact Hv.
  change (request p (setErrors _ _)) with (request p s). by rewrite Hr.
Qed.

(** X10: when the request of a valid form succeeds, the toast follows the
    request, then the list is refreshed (if the callback was given) and
    the drawer closed, and every cell of the form is back to empty; a
    submission of that emptied form sends nothing. *)
Theorem saved_form_is_reset p s req toast :
  (validateForm s).2 = true → request p s = Some (req, toast) →
  let r := handleSubmit p Resolved s in
  r.1 = mkState "" "" "" None None ∅ ∅ ∧
  r.2 = [PreventDefault; req; toast] ++
        (if refreshClientList p then [RefreshClientList] else []) ++
        [SetIsDrawerOpen false] ∧
  ∀ p' o, requests (handleSubmit p' o r.1).2 = [].
Proof.
  intros Hv Hr r. subst r. rewrite handleSubmit_unfold by done. simpl. rewrite Hr.
  split; [reflexivity|]. split; [reflexivity|].
  intros p' o. by apply empty_form_is_invalid.
Qed.

(** X11: a valid form in a mode that is neither add nor edit with a
    record is thrown away: nothing is sent and no toast is shown, yet the
    cells are emptied, the list refreshed and the drawer closed. *)
Theorem valid_form_without_request_is_discarded p o s :
  (validateForm s).2 = true →
  mode p ≠ "add" → (mode p ≠ "edit" ∨ initialData p = None) →
  handleSubmit p o s =
  (mkState "" "" "" None None ∅ ∅,
   [PreventDefault] ++
   (if refreshClientList p then [RefreshClientList] else []) ++
   [SetIsDrawerOpen false]).
Proof.
  intros Hv Ha He. rewrite handleSubmit_unfold by done. simpl.
  by rewrite request_none.
Qed.

(** *** The effect hook *)

Lemma or_empty_id x : or_empty x = x.
Proof. unfold or_empty. by case_bool_decide. Qed.


(** In add mode the hook empties the form. *)
Lemma useEffect_add p s :
  mode p = "add" → useEffect p s = mkState "" "" "" None None ∅ ∅.
Proof.
  intros Hm. unfold useEffect. rewrite Hm. simpl.
  by destruct (initialData p).
Qed.

End ClientFormHandlers.

(** ** Concrete runs of the properties above *)

Section MoreRuns.
Import ForgotPassword.

Lemma reachable_at_otp : reachable Patterns.rEmail Samples.page_at_otp.
Proof.
  apply (play_reachable Patterns.rEmail
           [Submit Samples.user; Settle 0 (Resolved true "OTP sent")] mount _
           [Post "/auth/forgot-password" [("email", "user@example.com")]]).
  - apply reachable_mount.
  - vm_compute. reflexivity.
  - reflexivity.
Qed.

Lemma step_changes_only_on_success_witness :
  dispatch Patterns.rEmail Back Samples.page_at_otp
  = Some (mkPage (setStep 1 Samples.at_otp) ∅ Samples.user [], []) ∧
  ((Back = Back ∧ step Samples.at_otp = 2%Z ∧ step (setStep 1 Samples.at_otp) = 1%Z) ∨
   ∃ k m h data,
     Back = Settle k (Resolved true m) ∧
     inflight Samples.page_at_otp !! k = Some (h, data) ∧
     step (setStep 1 Samples.at_otp) =
       match h with
       | HandleEmailSubmit => 2%Z
       | HandleOtpSubmit => 3%Z
       | HandlePasswordReset => 1%Z
       end).
Proof.
  assert (H1 : dispatch Patterns.rEmail Back Samples.page_at_otp
               = Some (mkPage (setStep 1 Samples.at_otp) ∅ Samples.user [], [])) by reflexivity.
  assert (H2 : step (ui (mkPage (setStep 1 Samples.at_otp) ∅ Samples.user []))
               ≠ step (ui Samples.page_at_otp)) by discriminate.
  split; [exact H1|].
  exact (step_changes_only_on_success Patterns.rEmail Back Samples.page_at_otp _ [] H1 H2).
Defined.

Lemma one_request_in_flight_witness :
  reachable Patterns.rEmail Samples.page_resubmitted ∧
  (isLoading (ui Samples.page_resubmitted) = true ↔ inflight Samples.page_resubmitted ≠ []) ∧
  (length (inflight Samples.page_resubmitted) ≤ 1)%nat.
Proof.
  split; [exact reachable_resubmitted|].
  pose proof (one_request_in_flight Patterns.rEmail Samples.page_resubmitted
                reachable_resubmitted) as (H1 & H2 & _).
  exact (conj H1 H2).
Defined.

Lemma submitOtp_success_advances_witness :
  step Samples.at_otp = 2%Z ∧
  String.length (Data.otp Samples.with_otp) = 6 ∧
  let r := onSubmit Patterns.rEmail Samples.with_otp Samples.with_otp
             (Resolved true "OTP verified") Samples.at_otp in
  step r.1 = 3%Z ∧ email r.1 = "user@example.com".
Proof.
  assert (H1 : step Samples.at_otp = 2%Z) by reflexivity.
  assert (H2 : String.length (Data.otp Samples.with_otp) = 6) by reflexivity.
  split; [exact H1|]. split; [exact H2|].
  pose proof (submitOtp_success_advances Patterns.rEmail Samples.with_otp
                Samples.with_otp "OTP verified" Samples.at_otp H1 H2) as (Ha & Hb & _).
  exact (conj Ha Hb).
Defined.

Lemma back_does_not_cancel_verification_witness :
  step (ui Samples.page_at_otp) = 2%Z ∧
  ∃ p1 p2 p3 req,
    dispatch Patterns.rEmail (Submit Samples.with_otp) Samples.page_at_otp
    = Some (p1, [req]) ∧
    dispatch Patterns.rEmail Back p1 = Some (p2, []) ∧ step (ui p2) = 1%Z ∧
    dispatch Patterns.rEmail (Settle 0 (Resolved true "OTP verified")) p2
    = Some (p3, []) ∧
    step (ui p3) = 3%Z ∧ email (ui p3) = "user@example.com".
Proof.
  assert (H1 : step (ui Samples.page_at_otp) = 2%Z) by reflexivity.
  split; [exact H1|].
  exact (back_does_not_cancel_verification Patterns.rEmail Samples.with_otp
           "OTP verified" Samples.page_at_otp H1 eq_refl eq_refl).
Defined.

Lemma invalid_submit_records_errors_witness :
  resolver Patterns.rEmail (ui Samples.page_at_otp) Samples.user ≠ [] ∧
  ∃ p',
    dispatch Patterns.rEmail (Submit Samples.user) Samples.page_at_otp = Some (p', []) ∧
    ui p' = Samples.at_otp ∧ inflight p' = [] ∧
    (∀ f, is_Some (errors p' !! f) ↔
          ∃ m, (f, m) ∈ resolver Patterns.rEmail Samples.at_otp Samples.user) ∧
    (∀ f m, errors p' !! f = Some m →
            (f, m) ∈ resolver Patterns.rEmail Samples.at_otp Samples.user).
Proof.
  assert (H1 : resolver Patterns.rEmail (ui Samples.page_at_otp) Samples.user ≠ [])
    by discriminate.
  split; [exact H1|].
  exact (invalid_submit_records_errors Patterns.rEmail HandleOtpSubmit Samples.user
           Samples.page_at_otp eq_refl eq_refl H1).
Defined.

Lemma retry_after_any_answer_witness :
  reachable Patterns.rEmail Samples.page_resubmitted ∧
  ∃ p',
    dispatch Patterns.rEmail (Settle 0 (Rejected "Network Error")) Samples.page_resubmitted
    = Some (p', []) ∧
    isLoading (ui p') = false ∧ inflight p' = [] ∧
    ∀ values, is_Some (dispatch Patterns.rEmail (Submit values) p').
Proof.
  split; [exact reachable_resubmitted|].
  eexists. split; [reflexivity|].
  pose proof (retry_after_any_answer Patterns.rEmail 0 (Rejected "Network Error")
                Samples.page_resubmitted _ [] reachable_resubmitted eq_refl)
    as (Ha & Hb & Hc).
  exact (conj Ha (conj Hb (Hc eq_refl))).
Defined.

End MoreRuns.

Section MoreClientRuns.
Import ClientForm.


Lemma failed_save_keeps_the_form_witness :
  (validateForm Patterns.rUrl Samples.acme).2 = true ∧
  let r := handleSubmit Patterns.rUrl Samples.adding (Rejected "Network Error")
             Samples.acme in
  title r.1 = "Acme" ∧ website r.1 = "https://acme.example.com" ∧
  content r.1 = "Acme builds anvils." ∧ imageFile r.1 = Some Samples.logo_png.
Proof.
  assert (H1 : (validateForm Patterns.rUrl Samples.acme).2 = true)
    by (vm_compute; reflexivity).
  split; [exact H1|].
  pose proof (failed_save_keeps_the_form Patterns.rUrl Samples.adding "Network Error"
                Samples.acme _ _ H1 eq_refl) as (Ha & Hb & Hc & Hd & _).
  exact (conj Ha (conj Hb (conj Hc Hd))).
Defined.

Lemma saved_form_is_reset_witness :
  (validateForm Patterns.rUrl Samples.acme).2 = true ∧
  (handleSubmit Patterns.rUrl Samples.adding Resolved Samples.acme).1 = Samples.blank.
Proof.
  assert (H1 : (validateForm Patterns.rUrl Samples.acme).2 = true)
    by (vm_compute; reflexivity).
  split; [exact H1|].
  exact (proj1 (saved_form_is_reset Patterns.rUrl Samples.adding Samples.acme _ _
                  H1 eq_refl)).
Defined.

Lemma valid_form_without_request_is_discarded_witness :
  (validateForm Patterns.rUrl Samples.acme).2 = true ∧
  handleSubmit Patterns.rUrl Samples.edit_without_record Resolved Samples.acme =
  (Samples.blank, [PreventDefault; RefreshClientList; SetIsDrawerOpen false]).
Proof.
  assert (H1 : (validateForm Patterns.rUrl Samples.acme).2 = true)
    by (vm_compute; reflexivity).
  assert (H2 : mode Samples.edit_without_record ≠ "add") by discriminate.
  split; [exact H1|].
  exact (valid_form_without_request_is_discarded Patterns.rUrl
           Samples.edit_without_record Resolved Samples.acme H1 H2
           (or_intror eq_refl)).
Defined.

End MoreClientRuns.
